(** * vkutils: device and depth-format selection, one-shot submission
      closure, specialization-table merge, descriptor counts, result
      names and feature-wide operations

    A shallow embedding of [src/vkutils.cc].  Handles are integers with
    [VK_NULL_HANDLE = 0]; fixed-width C integers are [Z] with their
    truncation written out; the Vulkan entry points the closure invokes
    are the constructors of [vkcall], answered by an arbitrary driver. *)

From Stdlib Require Import ZArith List Bool Lia Permutation.
From Stdlib Require String Ascii.
Import ListNotations.
Local Open Scope Z_scope.

(** ** Handles and fixed-width integers *)

Definition VkHandle := Z.
Definition VK_NULL_HANDLE : VkHandle := 0.

Definition VkPhysicalDevice := VkHandle.
Definition VkDevice := VkHandle.
Definition VkQueue := VkHandle.
Definition VkCommandPool := VkHandle.
Definition VkCommandBuffer := VkHandle.
Definition VkSemaphore := VkHandle.
Definition VkFence := VkHandle.

Definition UINT32_MOD : Z := 2 ^ 32.
Definition SIZE_MOD : Z := 2 ^ 64.

(** [static_cast<uint32_t>] and arithmetic on [uint32_t]. *)
Definition to_uint32 (z : Z) : Z := z mod UINT32_MOD.
(** Arithmetic on [size_t] (64 bits). *)
Definition to_size_t (z : Z) : Z := z mod SIZE_MOD.

(** ** Physical devices as the host reports them *)

Module Device.

(** [VkPhysicalDeviceType]; [VK_PHYSICAL_DEVICE_TYPE_unlisted] stands for
    any enumerator value the switch of [score_physical_device] sends to
    its [default] branch. *)
Inductive VkPhysicalDeviceType : Type :=
| VK_PHYSICAL_DEVICE_TYPE_OTHER
| VK_PHYSICAL_DEVICE_TYPE_INTEGRATED_GPU
| VK_PHYSICAL_DEVICE_TYPE_DISCRETE_GPU
| VK_PHYSICAL_DEVICE_TYPE_VIRTUAL_GPU
| VK_PHYSICAL_DEVICE_TYPE_CPU
| VK_PHYSICAL_DEVICE_TYPE_unlisted (raw : Z).

Record VkPhysicalDeviceProperties : Type := {
  deviceType : VkPhysicalDeviceType
}.

(** [VkPhysicalDeviceFeatures] is a struct of [VkBool32] fields; the
    scorer fetches it and reads none of them. *)
Definition VkPhysicalDeviceFeatures := list bool.

Record VkQueueFamilyProperties : Type := {
  queueFlags : Z;   (* uint32_t bit mask *)
  queueCount : Z    (* uint32_t *)
}.

(** Queue capability bits of the Vulkan headers. *)
Definition VK_QUEUE_GRAPHICS_BIT : Z := 1.
Definition VK_QUEUE_COMPUTE_BIT : Z := 2.

(** The read-only queries of the host API. *)
Record PhysicalDeviceQueries : Type := {
  vkGetPhysicalDeviceProperties : VkPhysicalDevice -> VkPhysicalDeviceProperties;
  vkGetPhysicalDeviceFeatures : VkPhysicalDevice -> VkPhysicalDeviceFeatures;
  vkGetPhysicalDeviceQueueFamilyProperties :
    VkPhysicalDevice -> list VkQueueFamilyProperties
}.

Section Scoring.

Variable host : PhysicalDeviceQueries.

(** One iteration of the loop of [confirm_queue_fam]. *)
Definition confirm_step (aBitmask maskResult : Z)
    (queueFamily : VkQueueFamilyProperties) : Z :=
  if queueCount queueFamily >? 0
  then Z.lor maskResult (Z.land aBitmask (queueFlags queueFamily))
  else maskResult.

Definition confirm_queue_fam (aDevice : VkPhysicalDevice) (aBitmask : Z) : bool :=
  let queueProperties := vkGetPhysicalDeviceQueueFamilyProperties host aDevice in
  let maskResult := fold_left (confirm_step aBitmask) queueProperties 0 in
  maskResult =? aBitmask.

(** The switch on [properties.deviceType], starting from [score = 0]. *)
Definition base_score (t : VkPhysicalDeviceType) : Z :=
  let score := 0 in
  match t with
  | VK_PHYSICAL_DEVICE_TYPE_OTHER => score + 0
  | VK_PHYSICAL_DEVICE_TYPE_INTEGRATED_GPU => score + 2000
  | VK_PHYSICAL_DEVICE_TYPE_DISCRETE_GPU => score + 4000
  | VK_PHYSICAL_DEVICE_TYPE_VIRTUAL_GPU => score + 3000
  | VK_PHYSICAL_DEVICE_TYPE_CPU => score + 1000
  | VK_PHYSICAL_DEVICE_TYPE_unlisted _ => score
  end.

Definition score_physical_device (aDevice : VkPhysicalDevice) : Z :=
  let properties := vkGetPhysicalDeviceProperties host aDevice in
  let features := vkGetPhysicalDeviceFeatures host aDevice in
  let score := base_score (deviceType properties) in
  if confirm_queue_fam aDevice (Z.lor VK_QUEUE_GRAPHICS_BIT VK_QUEUE_COMPUTE_BIT)
  then score else -1.

(** The loop of [select_physical_device]: [i] is the loop counter,
    [rest] the devices from index [i] on. *)
Fixpoint select_loop (rest : list VkPhysicalDevice) (i : nat)
    (high_score : Z) (max_index : nat) : Z * nat :=
  match rest with
  | [] => (high_score, max_index)
  | d :: rest' =>
      let score := score_physical_device d in
      if score >? high_score
      then select_loop rest' (S i) score i
      else select_loop rest' (S i) high_score max_index
  end.

Definition select_physical_device (aDevices : list VkPhysicalDevice)
    : VkPhysicalDevice :=
  let '(high_score, max_index) := select_loop aDevices 0%nat (-1) 0%nat in
  if high_score >=? 0
  then nth max_index aDevices VK_NULL_HANDLE
  else VK_NULL_HANDLE.

(** A queue family satisfies a required mask when it holds every bit of
    the mask and has at least one queue. *)
Definition family_satisfies (mask : Z) (q : VkQueueFamilyProperties) : Prop :=
  Z.land mask (queueFlags q) = mask /\ 0 < queueCount q.

Definition has_family (aDevice : VkPhysicalDevice) (mask : Z) : Prop :=
  exists q, In q (vkGetPhysicalDeviceQueueFamilyProperties host aDevice)
            /\ family_satisfies mask q.

(** The same host reporting other feature bits. *)
Definition with_features
    (features : VkPhysicalDevice -> VkPhysicalDeviceFeatures)
    : PhysicalDeviceQueries :=
  {| vkGetPhysicalDeviceProperties := vkGetPhysicalDeviceProperties host;
     vkGetPhysicalDeviceFeatures := features;
     vkGetPhysicalDeviceQueueFamilyProperties :=
       vkGetPhysicalDeviceQueueFamilyProperties host |}.

(** [aDevices[i]]. *)
Definition at_index (devs : list VkPhysicalDevice) (i : nat) : VkPhysicalDevice :=
  nth i devs VK_NULL_HANDLE.

(** What the loop knows after the devices [seen]: nothing scored above -1
    yet, or [max_index] is the first position holding the best score. *)
Definition select_invariant (seen : list VkPhysicalDevice) (high_score : Z)
    (max_index : nat) : Prop :=
  (high_score = -1 /\ forall d, In d seen -> score_physical_device d <= -1)
  \/ (0 <= high_score
      /\ (max_index < length seen)%nat
      /\ score_physical_device (at_index seen max_index) = high_score
      /\ (forall j, (j < length seen)%nat ->
             score_physical_device (at_index seen j) <= high_score)
      /\ (forall j, (j < max_index)%nat ->
             score_physical_device (at_index seen j) < high_score)).

End Scoring.

End Device.

(** ** Specialization tables *)

Module Specialization.

Record VkSpecializationMapEntry : Type := {
  constantID : Z;   (* uint32_t *)
  offset : Z;       (* uint32_t *)
  size : Z          (* size_t *)
}.

(** [pMapEntries] and [pData] are the arrays the two pointers address. *)
Record VkSpecializationInfo : Type := {
  mapEntryCount : Z;                          (* uint32_t *)
  pMapEntries : list VkSpecializationMapEntry;
  dataSize : Z;                               (* size_t *)
  pData : list Byte.byte
}.

(** A value-initialised entry, as [std::vector] fills its storage. *)
Definition zero_entry : VkSpecializationMapEntry :=
  {| constantID := 0; offset := 0; size := 0 |}.

(** [std::copy(first, last, d_first)] into a vector whose iterator
    [d_first] sits at index [pos]: the elements are written over
    [dst[pos ..]] and the iterator past the last written element is
    returned.  Writing past the end of the vector is undefined in the
    source and is [None] here. *)
Definition std_copy {T : Type} (src dst : list T) (pos : nat)
    : option (list T * nat) :=
  if (pos + length src <=? length dst)%nat
  then Some (firstn pos dst ++ src ++ skipn (pos + length src) dst,
             (pos + length src)%nat)
  else None.

(** [std::transform(first, last, d_first, op)]. *)
Definition std_transform {S T : Type} (op : S -> T) (src : list S)
    (dst : list T) (pos : nat) : option (list T * nat) :=
  std_copy (map op src) dst pos.

(** The range [[p, p + n)] read through a pointer. *)
Definition range {T : Type} (p : list T) (n : Z) : list T :=
  firstn (Z.to_nat n) p.

(** The lambda [addOffset]. *)
Definition addOffset (additionalOffset : Z) (entry : VkSpecializationMapEntry)
    : VkSpecializationMapEntry :=
  {| constantID := constantID entry;
     offset := to_uint32 (offset entry + additionalOffset);
     size := size entry |}.

(** The result is the returned pair of vectors together with the [out]
    parameter, whose pointers address those vectors. *)
Definition concat_specialization_info (a b : VkSpecializationInfo)
    : option (list VkSpecializationMapEntry * list Byte.byte
              * VkSpecializationInfo) :=
  let entries :=
    repeat zero_entry (Z.to_nat (to_uint32 (mapEntryCount a + mapEntryCount b))) in
  let data :=
    repeat Byte.x00 (Z.to_nat (to_size_t (dataSize a + dataSize b))) in
  match std_copy (range (pMapEntries a) (mapEntryCount a)) entries 0 with
  | None => None
  | Some (entries, tailEntry) =>
    match std_copy (range (pData a) (dataSize a)) data 0 with
    | None => None
    | Some (data, tailByte) =>
      let additionalOffset := to_uint32 (Z.of_nat tailByte) in
      match std_copy (range (pData b) (dataSize b)) data tailByte with
      | None => None
      | Some (data, _) =>
        match std_transform (addOffset additionalOffset)
                (range (pMapEntries b) (mapEntryCount b)) entries tailEntry with
        | None => None
        | Some (entries, _) =>
          let out :=
            {| mapEntryCount := to_uint32 (Z.of_nat (length entries));
               pMapEntries := entries;
               dataSize := Z.of_nat (length data);
               pData := data |} in
          Some (entries, data, out)
        end
      end
    end
  end.

(** The fields hold values of their C types and the counts describe the
    arrays behind the pointers. *)
Definition entry_in_range (e : VkSpecializationMapEntry) : Prop :=
  0 <= constantID e < UINT32_MOD /\ 0 <= offset e < UINT32_MOD
  /\ 0 <= size e < SIZE_MOD.

Definition well_formed (i : VkSpecializationInfo) : Prop :=
  mapEntryCount i = Z.of_nat (length (pMapEntries i))
  /\ mapEntryCount i < UINT32_MOD
  /\ dataSize i = Z.of_nat (length (pData i))
  /\ dataSize i < SIZE_MOD
  /\ Forall entry_in_range (pMapEntries i).

(** The bounds invariant of a table: every entry's byte range lies
    inside the blob. *)
Definition in_bounds (blobSize : Z) (e : VkSpecializationMapEntry) : Prop :=
  offset e + size e <= blobSize.

Definition table_in_bounds (i : VkSpecializationInfo) : Prop :=
  Forall (in_bounds (dataSize i)) (pMapEntries i).

Definition is_empty (i : VkSpecializationInfo) : Prop :=
  mapEntryCount i = 0 /\ dataSize i = 0.

(** The merged table in closed form: the two entry lists end to end, the
    second with its offsets advanced by the 32-bit truncation of the first
    blob's length, over the two blobs end to end. *)
Definition merged (a b : VkSpecializationInfo)
    : list VkSpecializationMapEntry * list Byte.byte * VkSpecializationInfo :=
  let entries :=
    pMapEntries a ++ map (addOffset (to_uint32 (dataSize a))) (pMapEntries b) in
  let data := pData a ++ pData b in
  (entries, data,
   {| mapEntryCount := mapEntryCount a + mapEntryCount b;
      pMapEntries := entries;
      dataSize := dataSize a + dataSize b;
      pData := data |}).

(** Two tables used to exercise the 32-bit offset arithmetic: a blob of
    exactly 2^32 zero bytes with no entries, and a four-byte blob with one
    entry at offset 0. *)
Definition table_4GiB : VkSpecializationInfo :=
  {| mapEntryCount := 0; pMapEntries := [];
     dataSize := UINT32_MOD;
     pData := repeat Byte.x00 (Z.to_nat UINT32_MOD) |}.

Definition table_one_constant : VkSpecializationInfo :=
  {| mapEntryCount := 1;
     pMapEntries := [ {| constantID := 1; offset := 0; size := 4 |} ];
     dataSize := 4;
     pData := [Byte.x01; Byte.x00; Byte.x00; Byte.x00] |}.

(** The two tables of the spec's worked example. *)
Definition table_A4 : VkSpecializationInfo :=
  {| mapEntryCount := 1;
     pMapEntries := [ {| constantID := 0; offset := 0; size := 4 |} ];
     dataSize := 4;
     pData := [Byte.x0a; Byte.x0b; Byte.x0c; Byte.x0d] |}.

Definition table_B8 : VkSpecializationInfo :=
  {| mapEntryCount := 1;
     pMapEntries := [ {| constantID := 1; offset := 0; size := 8 |} ];
     dataSize := 8;
     pData := repeat Byte.xff 8 |}.

Definition table_empty : VkSpecializationInfo :=
  {| mapEntryCount := 0; pMapEntries := []; dataSize := 0; pData := [] |}.

End Specialization.

(** ** The one-shot submission closure *)

Module Closure.

(** [VkResult]; only [VK_SUCCESS] is told apart from the other codes. *)
Definition VkResult := Z.
Definition VK_SUCCESS : VkResult := 0.

Inductive VkStructureType : Type :=
| VK_STRUCTURE_TYPE_zero
| VK_STRUCTURE_TYPE_COMMAND_POOL_CREATE_INFO
| VK_STRUCTURE_TYPE_COMMAND_BUFFER_ALLOCATE_INFO
| VK_STRUCTURE_TYPE_COMMAND_BUFFER_BEGIN_INFO
| VK_STRUCTURE_TYPE_SUBMIT_INFO.

Inductive VkCommandBufferLevel : Type :=
| VK_COMMAND_BUFFER_LEVEL_PRIMARY
| VK_COMMAND_BUFFER_LEVEL_SECONDARY.

Definition VK_COMMAND_POOL_CREATE_TRANSIENT_BIT : Z := 1.
Definition VK_COMMAND_BUFFER_USAGE_ONE_TIME_SUBMIT_BIT : Z := 1.

Record VkCommandPoolCreateInfo : Type := {
  poolCreate_sType : VkStructureType;
  poolCreate_flags : Z;
  poolCreate_queueFamilyIndex : Z
}.

Record VkCommandBufferAllocateInfo : Type := {
  alloc_sType : VkStructureType;
  alloc_commandPool : VkCommandPool;
  alloc_level : VkCommandBufferLevel;
  alloc_commandBufferCount : Z
}.

Record VkCommandBufferBeginInfo : Type := {
  begin_sType : VkStructureType;
  begin_flags : Z
}.

Record VkSubmitInfo : Type := {
  submit_sType : VkStructureType;
  waitSemaphoreCount : Z;
  pWaitSemaphores : list VkSemaphore;
  pWaitDstStageMask : list Z;
  commandBufferCount : Z;
  pCommandBuffers : list VkCommandBuffer;
  signalSemaphoreCount : Z;
  pSignalSemaphores : list VkSemaphore
}.

(** The entry points of the host API that the closure invokes. *)
Inductive vkcall : Type :=
| vkCreateCommandPool (device : VkDevice) (pCreateInfo : VkCommandPoolCreateInfo)
| vkAllocateCommandBuffers (device : VkDevice)
    (pAllocateInfo : VkCommandBufferAllocateInfo)
| vkBeginCommandBuffer (commandBuffer : VkCommandBuffer)
    (pBeginInfo : VkCommandBufferBeginInfo)
| vkEndCommandBuffer (commandBuffer : VkCommandBuffer)
| vkQueueSubmit (queue : VkQueue) (submitCount : Z) (pSubmits : VkSubmitInfo)
    (fence : VkFence)
| vkQueueWaitIdle (queue : VkQueue)
| vkFreeCommandBuffers (device : VkDevice) (commandPool : VkCommandPool)
    (commandBufferCount : Z) (pCommandBuffers : VkCommandBuffer)
| vkDestroyCommandPool (device : VkDevice) (commandPool : VkCommandPool).

(** What each entry point hands back: its [VkResult], and for the two
    creating calls also the handle written through the out pointer. *)
Definition resp (c : vkcall) : Type :=
  match c with
  | vkCreateCommandPool _ _ => (VkResult * VkCommandPool)%type
  | vkAllocateCommandBuffers _ _ => (VkResult * VkCommandBuffer)%type
  | vkBeginCommandBuffer _ _ => VkResult
  | vkEndCommandBuffer _ => VkResult
  | vkQueueSubmit _ _ _ _ => VkResult
  | vkQueueWaitIdle _ => VkResult
  | vkFreeCommandBuffers _ _ _ _ => unit
  | vkDestroyCommandPool _ _ => unit
  end.

(** Programs over the host API: return, fatal stop, or a call whose
    answer feeds the rest of the program. *)
Inductive prog (A : Type) : Type :=
| Ret (a : A)
| Abort
| Call (c : vkcall) (k : resp c -> prog A).

Arguments Ret {A} a.
Arguments Abort {A}.
Arguments Call {A} c k.

Fixpoint bind {A B : Type} (p : prog A) (f : A -> prog B) : prog B :=
  match p with
  | Ret a => f a
  | Abort => Abort
  | Call c k => Call c (fun r => bind (k r) f)
  end.

Definition call (c : vkcall) : prog (resp c) := Call c (fun r => Ret r).

Declare Scope prog_scope.
Delimit Scope prog_scope with prog.
Notation "x <- p ;; q" := (bind p (fun x => q))
  (at level 61, p at next level, right associativity) : prog_scope.
Notation "' pat <- p ;; q" := (bind p (fun x => match x with pat => q end))
  (at level 61, pat pattern, p at next level, right associativity) : prog_scope.
Notation "p ;; q" := (bind p (fun _ => q))
  (at level 61, right associativity) : prog_scope.

(** [assert(cond)] of <cassert>: a fatal stop when the condition fails,
    and no statement at all when the file is compiled with [NDEBUG]
    defined. *)
Definition assert (NDEBUG : bool) (cond : bool) : prog unit :=
  if NDEBUG then Ret tt else if cond then Ret tt else Abort.

(** Modelled from the spec: the macro [ASSERT_VK_SUCCESS] of [vkutils.h],
    which is not among the sources.  The spec treats a failed setup call
    as a fatal, abort-level condition: the macro stops the program unless
    the result of the call it wraps is [VK_SUCCESS]. *)
Definition ASSERT_VK_SUCCESS (r : VkResult) : prog unit :=
  if r =? VK_SUCCESS then Ret tt else Abort.

(** A call together with the answer the host gave. *)
Record event : Type := Ev { ev_call : vkcall; ev_resp : resp ev_call }.

(** A host is any state machine answering the calls. *)
Definition driver (H : Type) : Type := forall c : vkcall, H -> resp c * H.

(** Running a program against a host yields the events in program order,
    the final host state, and the returned value ([None] after a fatal
    stop). *)
Fixpoint run {H A : Type} (d : driver H) (p : prog A) (h : H)
    : list event * H * option A :=
  match p with
  | Ret a => ([], h, Some a)
  | Abort => ([], h, None)
  | Call c k =>
      let '(r, h1) := d c h in
      let '(t, h2, o) := run d (k r) h1 in
      (Ev c r :: t, h2, o)
  end.

Definition calls (t : list event) : list vkcall := map ev_call t.

Definition run_trace {H A : Type} (d : driver H) (p : prog A) (h : H)
    : list event := fst (fst (run d p h)).

Definition run_result {H A : Type} (d : driver H) (p : prog A) (h : H)
    : option A := snd (run d p h).

(** The [VkResult] a submit event carries, [None] for any other event. *)
Definition submit_result_of (e : event) : option VkResult :=
  match e with
  | Ev c r =>
      match c return resp c -> option VkResult with
      | vkQueueSubmit _ _ _ _ => fun r => Some r
      | _ => fun _ => None
      end r
  end.

(** In the trace [t], end-of-recording on [b] is the first call, and every
    submit call has it among the calls made earlier. *)
Definition ends_recording_first (b : VkCommandBuffer) (t : list event) : Prop :=
  (exists r rest, t = Ev (vkEndCommandBuffer b) r :: rest)
  /\ forall pre queue n submission fence post,
       calls t = pre ++ vkQueueSubmit queue n submission fence :: post ->
       In (vkEndCommandBuffer b) pre.

(** Only the [device] member of the closure's device pair is used. *)
Record VulkanDeviceHandlePair : Type := { device : VkDevice }.

Record QueueClosure : Type := {
  mQueue : VkQueue;
  mFamilyIdx : Z;
  _mDevicePair : VulkanDeviceHandlePair;
  _mCommandPool : VkCommandPool;
  _mCmdPoolInternal : bool
}.

Definition set_mCommandPool (this : QueueClosure) (p : VkCommandPool)
    : QueueClosure :=
  {| mQueue := mQueue this; mFamilyIdx := mFamilyIdx this;
     _mDevicePair := _mDevicePair this;
     _mCommandPool := p; _mCmdPoolInternal := _mCmdPoolInternal this |}.

Definition set_mCmdPoolInternal (this : QueueClosure) (b : bool)
    : QueueClosure :=
  {| mQueue := mQueue this; mFamilyIdx := mFamilyIdx this;
     _mDevicePair := _mDevicePair this;
     _mCommandPool := _mCommandPool this; _mCmdPoolInternal := b |}.

Local Open Scope prog_scope.

(** Member functions take the object as [this] and return it updated.
    [NDEBUG] tells whether the file is compiled with that macro defined,
    which decides what the [assert] after pool creation does. *)
Definition beginOneSubmitCommands (NDEBUG : bool) (this : QueueClosure)
    (aCommandPool : VkCommandPool) : prog (VkCommandBuffer * QueueClosure) :=
  '(this, aCommandPool) <-
    (if aCommandPool =? VK_NULL_HANDLE then
       let this := set_mCmdPoolInternal this true in
       let poolCreate :=
         {| poolCreate_sType := VK_STRUCTURE_TYPE_COMMAND_POOL_CREATE_INFO;
            poolCreate_queueFamilyIndex := mFamilyIdx this;
            poolCreate_flags := VK_COMMAND_POOL_CREATE_TRANSIENT_BIT |} in
       '(poolCreateResult, pool) <-
         call (vkCreateCommandPool (device (_mDevicePair this)) poolCreate) ;;
       let this := set_mCommandPool this pool in
       assert NDEBUG (poolCreateResult =? VK_SUCCESS) ;;
       Ret (this, _mCommandPool this)
     else Ret (this, aCommandPool)) ;;
  let allocInfo :=
    {| alloc_sType := VK_STRUCTURE_TYPE_COMMAND_BUFFER_ALLOCATE_INFO;
       alloc_commandBufferCount := 1;
       alloc_commandPool := aCommandPool;
       alloc_level := VK_COMMAND_BUFFER_LEVEL_PRIMARY |} in
  let beginInfo :=
    {| begin_sType := VK_STRUCTURE_TYPE_COMMAND_BUFFER_BEGIN_INFO;
       begin_flags := VK_COMMAND_BUFFER_USAGE_ONE_TIME_SUBMIT_BIT |} in
  '(allocResult, cmdBuffer) <-
    call (vkAllocateCommandBuffers (device (_mDevicePair this)) allocInfo) ;;
  ASSERT_VK_SUCCESS allocResult ;;
  beginResult <- call (vkBeginCommandBuffer cmdBuffer beginInfo) ;;
  ASSERT_VK_SUCCESS beginResult ;;
  Ret (cmdBuffer, this).

Definition _cleanupSubmit (this : QueueClosure) (aCmdBuffer : VkCommandBuffer)
    : prog QueueClosure :=
  (if negb (aCmdBuffer =? VK_NULL_HANDLE) && _mCmdPoolInternal this
   then call (vkFreeCommandBuffers (device (_mDevicePair this))
                (_mCommandPool this) 1 aCmdBuffer)
   else Ret tt) ;;
  this <-
    (if negb (_mCommandPool this =? VK_NULL_HANDLE)
     then call (vkDestroyCommandPool (device (_mDevicePair this))
                  (_mCommandPool this)) ;;
          Ret (set_mCommandPool this VK_NULL_HANDLE)
     else Ret this) ;;
  Ret (set_mCmdPoolInternal this false).

Section Finish.

(** The static member [sSingleSubmitTemplate] is declared in [vkutils.h];
    its value is left open. *)
Variable sSingleSubmitTemplate : VkSubmitInfo.

Definition build_submission (aCmdBuffer : VkCommandBuffer)
    (aWaitSemaphores aSignalSemaphores : list VkSemaphore) : VkSubmitInfo :=
  let submission := sSingleSubmitTemplate in
  {| submit_sType := submit_sType submission;
     pWaitDstStageMask := pWaitDstStageMask submission;
     commandBufferCount := 1;
     pCommandBuffers := [aCmdBuffer];
     waitSemaphoreCount := to_uint32 (Z.of_nat (length aWaitSemaphores));
     pWaitSemaphores := aWaitSemaphores;
     signalSemaphoreCount := to_uint32 (Z.of_nat (length aSignalSemaphores));
     pSignalSemaphores := aSignalSemaphores |}.

Definition finishOneSubmitCommands (this : QueueClosure)
    (aCmdBuffer : VkCommandBuffer)
    (aWaitSemaphores aSignalSemaphores : list VkSemaphore)
    (aFence : VkFence) (aShouldWait : bool) : prog (VkResult * QueueClosure) :=
  endResult <- call (vkEndCommandBuffer aCmdBuffer) ;;
  ASSERT_VK_SUCCESS endResult ;;
  let submission :=
    build_submission aCmdBuffer aWaitSemaphores aSignalSemaphores in
  submitResult <- call (vkQueueSubmit (mQueue this) 1 submission aFence) ;;
  (if (submitResult =? VK_SUCCESS) && aShouldWait
      && (aFence =? VK_NULL_HANDLE)
   then call (vkQueueWaitIdle (mQueue this)) ;; Ret tt
   else Ret tt) ;;
  this <- _cleanupSubmit this aCmdBuffer ;;
  Ret (submitResult, this).

(** The overload without semaphore lists. *)
Definition finishOneSubmitCommands_fence (this : QueueClosure)
    (aCmdBuffer : VkCommandBuffer) (aFence : VkFence) (aShouldWait : bool)
    : prog (VkResult * QueueClosure) :=
  finishOneSubmitCommands this aCmdBuffer [] [] aFence aShouldWait.

End Finish.

End Closure.

(** ** Concrete hosts and inputs used to exercise the statements *)

Module Examples.
Import Device Closure.

Definition family (flags count : Z) : VkQueueFamilyProperties :=
  {| queueFlags := flags; queueCount := count |}.

(** Device 1: integrated, one graphics+compute family.
    Device 2: discrete, one graphics+compute family.
    Device 3: discrete, a graphics-only family.
    Device 4: discrete, graphics and compute in two different families.
    Device 5: virtual, 6: CPU, 7: other, each with a graphics+compute
    family.  Any other handle: a discrete device without queue families. *)
Definition sample_host : PhysicalDeviceQueries :=
  {| vkGetPhysicalDeviceProperties := fun d =>
       {| deviceType :=
            if d =? 1 then VK_PHYSICAL_DEVICE_TYPE_INTEGRATED_GPU
            else if d =? 5 then VK_PHYSICAL_DEVICE_TYPE_VIRTUAL_GPU
            else if d =? 6 then VK_PHYSICAL_DEVICE_TYPE_CPU
            else if d =? 7 then VK_PHYSICAL_DEVICE_TYPE_OTHER
            else VK_PHYSICAL_DEVICE_TYPE_DISCRETE_GPU |};
     vkGetPhysicalDeviceFeatures := fun d => [Z.odd d];
     vkGetPhysicalDeviceQueueFamilyProperties := fun d =>
       if d =? 3 then [family VK_QUEUE_GRAPHICS_BIT 1]
       else if d =? 4
       then [family VK_QUEUE_GRAPHICS_BIT 1; family VK_QUEUE_COMPUTE_BIT 1]
       else if (1 <=? d) && (d <=? 7) then [family 3 2; family 4 1]
       else [] |}.

(** A host that hands out fresh handles and answers every call with
    [VK_SUCCESS], except [vkQueueSubmit], which it answers with
    [submitResult].  Its state is the next unused handle. *)
Definition scripted_driver (submitResult : VkResult) : driver Z :=
  fun c =>
    match c return Z -> resp c * Z with
    | vkCreateCommandPool _ _ => fun next => ((VK_SUCCESS, next), next + 1)
    | vkAllocateCommandBuffers _ _ => fun next => ((VK_SUCCESS, next), next + 1)
    | vkBeginCommandBuffer _ _ => fun next => (VK_SUCCESS, next)
    | vkEndCommandBuffer _ => fun next => (VK_SUCCESS, next)
    | vkQueueSubmit _ _ _ _ => fun next => (submitResult, next)
    | vkQueueWaitIdle _ => fun next => (VK_SUCCESS, next)
    | vkFreeCommandBuffers _ _ _ _ => fun next => (tt, next)
    | vkDestroyCommandPool _ _ => fun next => (tt, next)
    end.

Definition idle_closure : QueueClosure :=
  {| mQueue := 7; mFamilyIdx := 0; _mDevicePair := {| device := 5 |};
     _mCommandPool := VK_NULL_HANDLE; _mCmdPoolInternal := false |}.

(** The closure after [beginOneSubmitCommands] created pool 100. *)
Definition owning_closure : QueueClosure :=
  {| mQueue := 7; mFamilyIdx := 0; _mDevicePair := {| device := 5 |};
     _mCommandPool := 100; _mCmdPoolInternal := true |}.

Definition empty_template : VkSubmitInfo :=
  {| submit_sType := VK_STRUCTURE_TYPE_SUBMIT_INFO;
     waitSemaphoreCount := 0; pWaitSemaphores := [];
     pWaitDstStageMask := [];
     commandBufferCount := 0; pCommandBuffers := [];
     signalSemaphoreCount := 0; pSignalSemaphores := [] |}.

End Examples.

(** ** Descriptor pool sizes *)

Module Descriptor.

Record VkDescriptorPoolSize : Type := {
  type : Z;              (* VkDescriptorType *)
  descriptorCount : Z    (* uint32_t *)
}.

(** The loop body [sum += size.descriptorCount] on [uint32_t]. *)
Definition total_descriptor_count (aPoolSizes : list VkDescriptorPoolSize) : Z :=
  fold_left (fun sum size => to_uint32 (sum + descriptorCount size))
    aPoolSizes 0.

(** The mathematical sum of the counts. *)
Definition count_sum (aPoolSizes : list VkDescriptorPoolSize) : Z :=
  fold_right (fun size acc => descriptorCount size + acc) 0 aPoolSizes.

Definition pool_size (t c : Z) : VkDescriptorPoolSize :=
  {| type := t; descriptorCount := c |}.

End Descriptor.

(** ** Depth format selection *)

Module DepthFormat.
Import String.

(** What a function that may throw hands back. *)
Inductive outcome (A : Type) : Type :=
| Returned (a : A)
| Threw (what : string).

Arguments Returned {A} a.
Arguments Threw {A} what.

(** [VkFormat] enumerators of the Vulkan headers; the source compares
    them numerically. *)
Definition VkFormat := Z.
Definition VK_FORMAT_D16_UNORM : VkFormat := 124.
Definition VK_FORMAT_D32_SFLOAT : VkFormat := 126.
Definition VK_FORMAT_D16_UNORM_S8_UINT : VkFormat := 128.
Definition VK_FORMAT_D24_UNORM_S8_UINT : VkFormat := 129.
Definition VK_FORMAT_D32_SFLOAT_S8_UINT : VkFormat := 130.

Definition VK_FORMAT_FEATURE_DEPTH_STENCIL_ATTACHMENT_BIT : Z := 512.

Record VkFormatProperties : Type := {
  linearTilingFeatures : Z;
  optimalTilingFeatures : Z;
  bufferFeatures : Z
}.

Definition candidates : list VkFormat :=
  [ VK_FORMAT_D32_SFLOAT_S8_UINT;
    VK_FORMAT_D24_UNORM_S8_UINT;
    VK_FORMAT_D16_UNORM_S8_UINT;
    VK_FORMAT_D32_SFLOAT;
    VK_FORMAT_D16_UNORM ].

Section Select.

(** The host query [vkGetPhysicalDeviceFormatProperties]. *)
Variable vkGetPhysicalDeviceFormatProperties :
  VkPhysicalDevice -> VkFormat -> VkFormatProperties.

Variable aPhysDev : VkPhysicalDevice.
Variable aRequireStencil : bool.

(** The range-for over [candidates], ending in the [throw]. *)
Fixpoint select_depth_format_loop (remaining : list VkFormat)
    : outcome VkFormat :=
  match remaining with
  | [] => Threw "Failed to find compatible depth format!"%string
  | format :: remaining' =>
      let formatProps := vkGetPhysicalDeviceFormatProperties aPhysDev format in
      let hasFeature :=
        negb (Z.land (optimalTilingFeatures formatProps)
                VK_FORMAT_FEATURE_DEPTH_STENCIL_ATTACHMENT_BIT =? 0) in
      let hasStencil := format >=? VK_FORMAT_D16_UNORM_S8_UINT in
      if hasFeature && (negb aRequireStencil || hasStencil)
      then Returned format
      else select_depth_format_loop remaining'
  end.

Definition select_depth_format (aPreferred : VkFormat) : outcome VkFormat :=
  let formatProps := vkGetPhysicalDeviceFormatProperties aPhysDev aPreferred in
  let hasFeature :=
    negb (Z.land (optimalTilingFeatures formatProps)
            VK_FORMAT_FEATURE_DEPTH_STENCIL_ATTACHMENT_BIT =? 0) in
  let hasStencil := aPreferred >=? VK_FORMAT_D16_UNORM_S8_UINT in
  if hasFeature && (negb aRequireStencil || hasStencil)
  then Returned aPreferred
  else select_depth_format_loop candidates.

(** The host offers [format] as an optimally tiled depth/stencil
    attachment. *)
Definition usable (format : VkFormat) : Prop :=
  Z.land (optimalTilingFeatures
            (vkGetPhysicalDeviceFormatProperties aPhysDev format))
    VK_FORMAT_FEATURE_DEPTH_STENCIL_ATTACHMENT_BIT <> 0.

(** The test both the preferred format and each candidate go through. *)
Definition acceptable (format : VkFormat) : Prop :=
  usable format
  /\ (aRequireStencil = true -> VK_FORMAT_D16_UNORM_S8_UINT <= format).

(** The same test as the boolean the source evaluates. *)
Definition passes (format : VkFormat) : bool :=
  negb (Z.land (optimalTilingFeatures
                  (vkGetPhysicalDeviceFormatProperties aPhysDev format))
          VK_FORMAT_FEATURE_DEPTH_STENCIL_ATTACHMENT_BIT =? 0)
  && (negb aRequireStencil || (format >=? VK_FORMAT_D16_UNORM_S8_UINT)).

End Select.

(** A host on which exactly the listed formats are usable. *)
Definition host_with (supported : list VkFormat)
    : VkPhysicalDevice -> VkFormat -> VkFormatProperties :=
  fun _ format =>
    {| linearTilingFeatures := 0;
       optimalTilingFeatures :=
         if existsb (Z.eqb format) supported
         then VK_FORMAT_FEATURE_DEPTH_STENCIL_ATTACHMENT_BIT + 1 else 1;
       bufferFeatures := 0 |}.

End DepthFormat.

(** ** Result codes as text *)

Module ResultStr.
Import String.

(** The enumerators of [VkResult] that the switch of [vk_result_str]
    lists; [VK_RESULT_unlisted] is any value that reaches its [default]. *)
Inductive VkResult : Type :=
| VK_SUCCESS
| VK_NOT_READY
| VK_TIMEOUT
| VK_EVENT_SET
| VK_EVENT_RESET
| VK_INCOMPLETE
| VK_ERROR_OUT_OF_HOST_MEMORY
| VK_ERROR_OUT_OF_DEVICE_MEMORY
| VK_ERROR_INITIALIZATION_FAILED
| VK_ERROR_DEVICE_LOST
| VK_ERROR_MEMORY_MAP_FAILED
| VK_ERROR_LAYER_NOT_PRESENT
| VK_ERROR_EXTENSION_NOT_PRESENT
| VK_ERROR_FEATURE_NOT_PRESENT
| VK_ERROR_INCOMPATIBLE_DRIVER
| VK_ERROR_TOO_MANY_OBJECTS
| VK_ERROR_FORMAT_NOT_SUPPORTED
| VK_ERROR_FRAGMENTED_POOL
| VK_ERROR_UNKNOWN
| VK_ERROR_OUT_OF_POOL_MEMORY
| VK_ERROR_INVALID_EXTERNAL_HANDLE
| VK_ERROR_FRAGMENTATION
| VK_ERROR_INVALID_OPAQUE_CAPTURE_ADDRESS
| VK_ERROR_SURFACE_LOST_KHR
| VK_ERROR_NATIVE_WINDOW_IN_USE_KHR
| VK_SUBOPTIMAL_KHR
| VK_ERROR_OUT_OF_DATE_KHR
| VK_ERROR_INCOMPATIBLE_DISPLAY_KHR
| VK_ERROR_VALIDATION_FAILED_EXT
| VK_ERROR_INVALID_SHADER_NV
| VK_ERROR_INVALID_DRM_FORMAT_MODIFIER_PLANE_LAYOUT_EXT
| VK_ERROR_NOT_PERMITTED_EXT
| VK_ERROR_FULL_SCREEN_EXCLUSIVE_MODE_LOST_EXT
| VK_THREAD_IDLE_KHR
| VK_THREAD_DONE_KHR
| VK_OPERATION_DEFERRED_KHR
| VK_OPERATION_NOT_DEFERRED_KHR
| VK_PIPELINE_COMPILE_REQUIRED_EXT
| VK_RESULT_unlisted (raw : Z).

Definition vk_result_str (r : VkResult) : string :=
  match r with
  | VK_SUCCESS => "VK_SUCCESS"
  | VK_NOT_READY => "VK_NOT_READY"
  | VK_TIMEOUT => "VK_TIMEOUT"
  | VK_EVENT_SET => "VK_EVENT_SET"
  | VK_EVENT_RESET => "VK_EVENT_RESET"
  | VK_INCOMPLETE => "VK_INCOMPLETE"
  | VK_ERROR_OUT_OF_HOST_MEMORY => "VK_ERROR_OUT_OF_HOST_MEMORY"
  | VK_ERROR_OUT_OF_DEVICE_MEMORY => "VK_ERROR_OUT_OF_DEVICE_MEMORY"
  | VK_ERROR_INITIALIZATION_FAILED => "VK_ERROR_INITIALIZATION_FAILED"
  | VK_ERROR_DEVICE_LOST => "VK_ERROR_DEVICE_LOST"
  | VK_ERROR_MEMORY_MAP_FAILED => "VK_ERROR_MEMORY_MAP_FAILED"
  | VK_ERROR_LAYER_NOT_PRESENT => "VK_ERROR_LAYER_NOT_PRESENT"
  | VK_ERROR_EXTENSION_NOT_PRESENT => "VK_ERROR_EXTENSION_NOT_PRESENT"
  | VK_ERROR_FEATURE_NOT_PRESENT => "VK_ERROR_FEATURE_NOT_PRESENT"
  | VK_ERROR_INCOMPATIBLE_DRIVER => "VK_ERROR_INCOMPATIBLE_DRIVER"
  | VK_ERROR_TOO_MANY_OBJECTS => "VK_ERROR_TOO_MANY_OBJECTS"
  | VK_ERROR_FORMAT_NOT_SUPPORTED => "VK_ERROR_FORMAT_NOT_SUPPORTED"
  | VK_ERROR_FRAGMENTED_POOL => "VK_ERROR_FRAGMENTED_POOL"
  | VK_ERROR_UNKNOWN => "VK_ERROR_UNKNOWN"
  | VK_ERROR_OUT_OF_POOL_MEMORY => "VK_ERROR_OUT_OF_POOL_MEMORY"
  | VK_ERROR_INVALID_EXTERNAL_HANDLE => "VK_ERROR_INVALID_EXTERNAL_HANDLE"
  | VK_ERROR_FRAGMENTATION => "VK_ERROR_FRAGMENTATION"
  | VK_ERROR_INVALID_OPAQUE_CAPTURE_ADDRESS => "VK_ERROR_INVALID_OPAQUE_CAPTURE_ADDRESS"
  | VK_ERROR_SURFACE_LOST_KHR => "VK_ERROR_SURFACE_LOST_KHR"
  | VK_ERROR_NATIVE_WINDOW_IN_USE_KHR => "VK_ERROR_NATIVE_WINDOW_IN_USE_KHR"
  | VK_SUBOPTIMAL_KHR => "VK_SUBOPTIMAL_KHR"
  | VK_ERROR_OUT_OF_DATE_KHR => "VK_ERROR_OUT_OF_DATE_KHR"
  | VK_ERROR_INCOMPATIBLE_DISPLAY_KHR => "VK_ERROR_INCOMPATIBLE_DISPLAY_KHR"
  | VK_ERROR_VALIDATION_FAILED_EXT => "VK_ERROR_VALIDATION_FAILED_EXT"
  | VK_ERROR_INVALID_SHADER_NV => "VK_ERROR_INVALID_SHADER_NV"
  | VK_ERROR_INVALID_DRM_FORMAT_MODIFIER_PLANE_LAYOUT_EXT => "VK_ERROR_INVALID_DRM_FORMAT_MODIFIER_PLANE_LAYOUT_EXT"
  | VK_ERROR_NOT_PERMITTED_EXT => "VK_ERROR_NOT_PERMITTED_EXT"
  | VK_ERROR_FULL_SCREEN_EXCLUSIVE_MODE_LOST_EXT => "VK_ERROR_FULL_SCREEN_EXCLUSIVE_MODE_LOST_EXT"
  | VK_THREAD_IDLE_KHR => "VK_THREAD_IDLE_KHR"
  | VK_THREAD_DONE_KHR => "VK_THREAD_DONE_KHR"
  | VK_OPERATION_DEFERRED_KHR => "VK_OPERATION_DEFERRED_KHR"
  | VK_OPERATION_NOT_DEFERRED_KHR => "VK_OPERATION_NOT_DEFERRED_KHR"
  | VK_PIPELINE_COMPILE_REQUIRED_EXT => "VK_PIPELINE_COMPILE_REQUIRED_EXT"
  | VK_RESULT_unlisted _ => "<!Invalid VkResult value!>"
  end%string.

Definition listed (r : VkResult) : Prop :=
  match r with VK_RESULT_unlisted _ => False | _ => True end.

End ResultStr.

(** ** Operations over all device features *)

Module Features.
Import String.

Definition VkBool32 := Z.

(** The members of [VkPhysicalDeviceFeatures] that the two functions
    name, in the order of their lines. *)
Inductive Field : Type :=
| robustBufferAccess
| fullDrawIndexUint32
| imageCubeArray
| independentBlend
| geometryShader
| tessellationShader
| sampleRateShading
| dualSrcBlend
| logicOp
| multiDrawIndirect
| drawIndirectFirstInstance
| depthClamp
| depthBiasClamp
| fillModeNonSolid
| depthBounds
| wideLines
| largePoints
| alphaToOne
| multiViewport
| samplerAnisotropy
| textureCompressionETC2
| textureCompressionASTC_LDR
| textureCompressionBC
| occlusionQueryPrecise
| pipelineStatisticsQuery
| vertexPipelineStoresAndAtomics
| fragmentStoresAndAtomics
| shaderTessellationAndGeometryPointSize
| shaderImageGatherExtended
| shaderStorageImageExtendedFormats
| shaderStorageImageMultisample
| shaderStorageImageReadWithoutFormat
| shaderStorageImageWriteWithoutFormat
| shaderUniformBufferArrayDynamicIndexing
| shaderSampledImageArrayDynamicIndexing
| shaderStorageBufferArrayDynamicIndexing
| shaderStorageImageArrayDynamicIndexing
| shaderClipDistance
| shaderCullDistance
| shaderFloat64
| shaderInt64
| shaderInt16
| shaderResourceResidency
| shaderResourceMinLod
| sparseBinding
| sparseResidencyBuffer
| sparseResidencyImage2D
| sparseResidencyImage3D
| sparseResidency2Samples
| sparseResidency4Samples
| sparseResidency8Samples
| sparseResidency16Samples
| sparseResidencyAliased
| variableMultisampleRate
| inheritedQueries.

Scheme Equality for Field.

(** The struct, seen as the value of each of its members. *)
Definition VkPhysicalDeviceFeatures := Field -> VkBool32.

Definition set_field (s : VkPhysicalDeviceFeatures) (x : Field) (v : VkBool32)
    : VkPhysicalDeviceFeatures :=
  fun y => if Field_beq y x then v else s y.

(** The function arguments are references: two of them may name the same
    object.  A store maps each object to its current contents. *)
Definition ref := nat.
Definition store := ref -> VkPhysicalDeviceFeatures.

Definition write (st : store) (r : ref) (x : Field) (v : VkBool32) : store :=
  fun r' => if Nat.eqb r' r then set_field (st r') x v else st r'.

Section Ops.

(** The callbacks are [std::function] objects: they may carry state of
    their own, of type [S], which each call may change. *)
Variable S : Type.

Definition binary_func := S -> VkBool32 -> VkBool32 -> string -> VkBool32 * S.
Definition unary_func := S -> VkBool32 -> string -> VkBool32 * S.

Definition statement := store * S -> store * S.

(** [aFeaturesOut.o = aBinaryFunc(a.x, b.y, name);] *)
Definition assign_binary (a b aFeaturesOut : ref) (aBinaryFunc : binary_func)
    (o x y : Field) (name : string) : statement :=
  fun '(st, s) =>
    let '(v, s') := aBinaryFunc s (st a x) (st b y) name in
    (write st aFeaturesOut o v, s').

(** [aFeaturesOut.o = aUnaryFunc(aFeaturesIn.x, name);] *)
Definition assign_unary (aFeaturesIn aFeaturesOut : ref) (aUnaryFunc : unary_func)
    (o x : Field) (name : string) : statement :=
  fun '(st, s) =>
    let '(v, s') := aUnaryFunc s (st aFeaturesIn x) name in
    (write st aFeaturesOut o v, s').

(** The statements of a function body, run in order. *)
Definition exec_block (block : list statement) (init : store * S) : store * S :=
  fold_left (fun state line => line state) block init.

Definition boolean_op_phys_device_features (a b aFeaturesOut : ref)
    (aBinaryFunc : binary_func) : statement :=
  let line := assign_binary a b aFeaturesOut aBinaryFunc in
  exec_block
    [line robustBufferAccess robustBufferAccess robustBufferAccess "robustBufferAccess"%string;
      line fullDrawIndexUint32 fullDrawIndexUint32 fullDrawIndexUint32 "fullDrawIndexUint32"%string;
      line imageCubeArray imageCubeArray imageCubeArray "imageCubeArray"%string;
      line independentBlend independentBlend independentBlend "independentBlend"%string;
      line geometryShader geometryShader geometryShader "geometryShader"%string;
      line tessellationShader tessellationShader tessellationShader "tessellationShader"%string;
      line sampleRateShading sampleRateShading sampleRateShading "sampleRateShading"%string;
      line dualSrcBlend dualSrcBlend dualSrcBlend "dualSrcBlend"%string;
      line logicOp logicOp logicOp "logicOp"%string;
      line multiDrawIndirect multiDrawIndirect multiDrawIndirect "multiDrawIndirect"%string;
      line drawIndirectFirstInstance drawIndirectFirstInstance drawIndirectFirstInstance "drawIndirectFirstInstance"%string;
      line depthClamp depthClamp depthClamp "depthClamp"%string;
      line depthBiasClamp depthBiasClamp depthBiasClamp "depthBiasClamp"%string;
      line fillModeNonSolid fillModeNonSolid fillModeNonSolid "fillModeNonSolid"%string;
      line depthBounds depthBounds depthBounds "depthBounds"%string;
      line wideLines wideLines wideLines "wideLines"%string;
      line largePoints largePoints largePoints "largePoints"%string;
      line alphaToOne alphaToOne alphaToOne "alphaToOne"%string;
      line multiViewport multiViewport multiViewport "multiViewport"%string;
      line samplerAnisotropy samplerAnisotropy samplerAnisotropy "samplerAnisotropy"%string;
      line textureCompressionETC2 textureCompressionETC2 textureCompressionETC2 "textureCompressionETC2"%string;
      line textureCompressionASTC_LDR textureCompressionASTC_LDR textureCompressionASTC_LDR "textureCompressionASTC_LDR"%string;
      line textureCompressionBC textureCompressionBC textureCompressionBC "textureCompressionBC"%string;
      line occlusionQueryPrecise occlusionQueryPrecise occlusionQueryPrecise "occlusionQueryPrecise"%string;
      line pipelineStatisticsQuery pipelineStatisticsQuery pipelineStatisticsQuery "pipelineStatisticsQuery"%string;
      line vertexPipelineStoresAndAtomics vertexPipelineStoresAndAtomics vertexPipelineStoresAndAtomics "vertexPipelineStoresAndAtomics"%string;
      line fragmentStoresAndAtomics fragmentStoresAndAtomics fragmentStoresAndAtomics "fragmentStoresAndAtomics"%string;
      line shaderTessellationAndGeometryPointSize shaderTessellationAndGeometryPointSize shaderTessellationAndGeometryPointSize "shaderTessellationAndGeometryPointSize"%string;
      line shaderImageGatherExtended shaderImageGatherExtended shaderImageGatherExtended "shaderImageGatherExtended"%string;
      line shaderStorageImageExtendedFormats shaderStorageImageExtendedFormats shaderStorageImageExtendedFormats "shaderStorageImageExtendedFormats"%string;
      line shaderStorageImageMultisample shaderStorageImageMultisample shaderStorageImageMultisample "shaderStorageImageMultisample"%string;
      line shaderStorageImageReadWithoutFormat shaderStorageImageReadWithoutFormat shaderStorageImageReadWithoutFormat "shaderStorageImageReadWithoutFormat"%string;
      line shaderStorageImageWriteWithoutFormat shaderStorageImageWriteWithoutFormat shaderStorageImageWriteWithoutFormat "shaderStorageImageWriteWithoutFormat"%string;
      line shaderUniformBufferArrayDynamicIndexing shaderUniformBufferArrayDynamicIndexing shaderUniformBufferArrayDynamicIndexing "shaderUniformBufferArrayDynamicIndexing"%string;
      line shaderSampledImageArrayDynamicIndexing shaderSampledImageArrayDynamicIndexing shaderSampledImageArrayDynamicIndexing "shaderSampledImageArrayDynamicIndexing"%string;
      line shaderStorageBufferArrayDynamicIndexing shaderStorageBufferArrayDynamicIndexing shaderStorageBufferArrayDynamicIndexing "shaderStorageBufferArrayDynamicIndexing"%string;
      line shaderStorageImageArrayDynamicIndexing shaderStorageImageArrayDynamicIndexing shaderStorageImageArrayDynamicIndexing "shaderStorageImageArrayDynamicIndexing"%string;
      line shaderClipDistance shaderClipDistance shaderClipDistance "shaderClipDistance"%string;
      line shaderCullDistance shaderCullDistance shaderCullDistance "shaderCullDistance"%string;
      line shaderFloat64 shaderFloat64 shaderFloat64 "shaderFloat64"%string;
      line shaderInt64 shaderInt64 shaderInt64 "shaderInt64"%string;
      line shaderInt16 shaderInt16 shaderInt16 "shaderInt16"%string;
      line shaderResourceResidency shaderResourceResidency shaderResourceResidency "shaderResourceResidency"%string;
      line shaderResourceMinLod shaderResourceMinLod shaderResourceMinLod "shaderResourceMinLod"%string;
      line sparseBinding sparseBinding sparseBinding "sparseBinding"%string;
      line sparseResidencyBuffer sparseResidencyBuffer sparseResidencyBuffer "sparseResidencyBuffer"%string;
      line sparseResidencyImage2D sparseResidencyImage2D sparseResidencyImage2D "sparseResidencyImage2D"%string;
      line sparseResidencyImage3D sparseResidencyImage3D sparseResidencyImage3D "sparseResidencyImage3D"%string;
      line sparseResidency2Samples sparseResidency2Samples sparseResidency2Samples "sparseResidency2Samples"%string;
      line sparseResidency4Samples sparseResidency4Samples sparseResidency4Samples "sparseResidency4Samples"%string;
      line sparseResidency8Samples sparseResidency8Samples sparseResidency8Samples "sparseResidency8Samples"%string;
      line sparseResidency16Samples sparseResidency16Samples sparseResidency16Samples "sparseResidency16Samples"%string;
      line sparseResidencyAliased sparseResidencyAliased sparseResidencyAliased "sparseResidencyAliased"%string;
      line variableMultisampleRate variableMultisampleRate variableMultisampleRate "variableMultisampleRate"%string;
      line inheritedQueries inheritedQueries inheritedQueries "inheritedQueries"%string ].

Definition unary_op_phys_device_features (aFeaturesIn aFeaturesOut : ref)
    (aUnaryFunc : unary_func) : statement :=
  let line := assign_unary aFeaturesIn aFeaturesOut aUnaryFunc in
  exec_block
    [line robustBufferAccess robustBufferAccess "robustBufferAccess"%string;
      line fullDrawIndexUint32 fullDrawIndexUint32 "fullDrawIndexUint32"%string;
      line imageCubeArray imageCubeArray "imageCubeArray"%string;
      line independentBlend independentBlend "independentBlend"%string;
      line geometryShader geometryShader "geometryShader"%string;
      line tessellationShader tessellationShader "tessellationShader"%string;
      line sampleRateShading sampleRateShading "sampleRateShading"%string;
      line dualSrcBlend dualSrcBlend "dualSrcBlend"%string;
      line logicOp logicOp "logicOp"%string;
      line multiDrawIndirect multiDrawIndirect "multiDrawIndirect"%string;
      line drawIndirectFirstInstance drawIndirectFirstInstance "drawIndirectFirstInstance"%string;
      line depthClamp depthClamp "depthClamp"%string;
      line depthBiasClamp depthBiasClamp "depthBiasClamp"%string;
      line fillModeNonSolid fillModeNonSolid "fillModeNonSolid"%string;
      line depthBounds depthBounds "depthBounds"%string;
      line wideLines wideLines "wideLines"%string;
      line largePoints largePoints "largePoints"%string;
      line alphaToOne alphaToOne "alphaToOne"%string;
      line multiViewport multiViewport "multiViewport"%string;
      line samplerAnisotropy samplerAnisotropy "samplerAnisotropy"%string;
      line textureCompressionETC2 textureCompressionETC2 "textureCompressionETC2"%string;
      line textureCompressionASTC_LDR textureCompressionASTC_LDR "textureCompressionASTC_LDR"%string;
      line textureCompressionBC textureCompressionBC "textureCompressionBC"%string;
      line occlusionQueryPrecise occlusionQueryPrecise "occlusionQueryPrecise"%string;
      line pipelineStatisticsQuery pipelineStatisticsQuery "pipelineStatisticsQuery"%string;
      line vertexPipelineStoresAndAtomics vertexPipelineStoresAndAtomics "vertexPipelineStoresAndAtomics"%string;
      line fragmentStoresAndAtomics fragmentStoresAndAtomics "fragmentStoresAndAtomics"%string;
      line shaderTessellationAndGeometryPointSize shaderTessellationAndGeometryPointSize "shaderTessellationAndGeometryPointSize"%string;
      line shaderImageGatherExtended shaderImageGatherExtended "shaderImageGatherExtended"%string;
      line shaderStorageImageExtendedFormats shaderStorageImageExtendedFormats "shaderStorageImageExtendedFormats"%string;
      line shaderStorageImageMultisample shaderStorageImageMultisample "shaderStorageImageMultisample"%string;
      line shaderStorageImageReadWithoutFormat shaderStorageImageReadWithoutFormat "shaderStorageImageReadWithoutFormat"%string;
      line shaderStorageImageWriteWithoutFormat shaderStorageImageWriteWithoutFormat "shaderStorageImageWriteWithoutFormat"%string;
      line shaderUniformBufferArrayDynamicIndexing shaderUniformBufferArrayDynamicIndexing "shaderUniformBufferArrayDynamicIndexing"%string;
      line shaderSampledImageArrayDynamicIndexing shaderSampledImageArrayDynamicIndexing "shaderSampledImageArrayDynamicIndexing"%string;
      line shaderStorageBufferArrayDynamicIndexing shaderStorageBufferArrayDynamicIndexing "shaderStorageBufferArrayDynamicIndexing"%string;
      line shaderStorageImageArrayDynamicIndexing shaderStorageImageArrayDynamicIndexing "shaderStorageImageArrayDynamicIndexing"%string;
      line shaderClipDistance shaderClipDistance "shaderClipDistance"%string;
      line shaderCullDistance shaderCullDistance "shaderCullDistance"%string;
      line shaderFloat64 shaderFloat64 "shaderFloat64"%string;
      line shaderInt64 shaderInt64 "shaderInt64"%string;
      line shaderInt16 shaderInt16 "shaderInt16"%string;
      line shaderResourceResidency shaderResourceResidency "shaderResourceResidency"%string;
      line shaderResourceMinLod shaderResourceMinLod "shaderResourceMinLod"%string;
      line sparseBinding sparseBinding "sparseBinding"%string;
      line sparseResidencyBuffer sparseResidencyBuffer "sparseResidencyBuffer"%string;
      line sparseResidencyImage2D sparseResidencyImage2D "sparseResidencyImage2D"%string;
      line sparseResidencyImage3D sparseResidencyImage3D "sparseResidencyImage3D"%string;
      line sparseResidency2Samples sparseResidency2Samples "sparseResidency2Samples"%string;
      line sparseResidency4Samples sparseResidency4Samples "sparseResidency4Samples"%string;
      line sparseResidency8Samples sparseResidency8Samples "sparseResidency8Samples"%string;
      line sparseResidency16Samples sparseResidency16Samples "sparseResidency16Samples"%string;
      line sparseResidencyAliased sparseResidencyAliased "sparseResidencyAliased"%string;
      line variableMultisampleRate variableMultisampleRate "variableMultisampleRate"%string;
      line inheritedQueries inheritedQueries "inheritedQueries"%string ].

End Ops.

Definition all_fields : list Field :=
  [ robustBufferAccess;
    fullDrawIndexUint32;
    imageCubeArray;
    independentBlend;
    geometryShader;
    tessellationShader;
    sampleRateShading;
    dualSrcBlend;
    logicOp;
    multiDrawIndirect;
    drawIndirectFirstInstance;
    depthClamp;
    depthBiasClamp;
    fillModeNonSolid;
    depthBounds;
    wideLines;
    largePoints;
    alphaToOne;
    multiViewport;
    samplerAnisotropy;
    textureCompressionETC2;
    textureCompressionASTC_LDR;
    textureCompressionBC;
    occlusionQueryPrecise;
    pipelineStatisticsQuery;
    vertexPipelineStoresAndAtomics;
    fragmentStoresAndAtomics;
    shaderTessellationAndGeometryPointSize;
    shaderImageGatherExtended;
    shaderStorageImageExtendedFormats;
    shaderStorageImageMultisample;
    shaderStorageImageReadWithoutFormat;
    shaderStorageImageWriteWithoutFormat;
    shaderUniformBufferArrayDynamicIndexing;
    shaderSampledImageArrayDynamicIndexing;
    shaderStorageBufferArrayDynamicIndexing;
    shaderStorageImageArrayDynamicIndexing;
    shaderClipDistance;
    shaderCullDistance;
    shaderFloat64;
    shaderInt64;
    shaderInt16;
    shaderResourceResidency;
    shaderResourceMinLod;
    sparseBinding;
    sparseResidencyBuffer;
    sparseResidencyImage2D;
    sparseResidencyImage3D;
    sparseResidency2Samples;
    sparseResidency4Samples;
    sparseResidency8Samples;
    sparseResidency16Samples;
    sparseResidencyAliased;
    variableMultisampleRate;
    inheritedQueries ].

(** The identifier of each member. *)
Definition field_name (x : Field) : string :=
  match x with
  | robustBufferAccess => "robustBufferAccess"
  | fullDrawIndexUint32 => "fullDrawIndexUint32"
  | imageCubeArray => "imageCubeArray"
  | independentBlend => "independentBlend"
  | geometryShader => "geometryShader"
  | tessellationShader => "tessellationShader"
  | sampleRateShading => "sampleRateShading"
  | dualSrcBlend => "dualSrcBlend"
  | logicOp => "logicOp"
  | multiDrawIndirect => "multiDrawIndirect"
  | drawIndirectFirstInstance => "drawIndirectFirstInstance"
  | depthClamp => "depthClamp"
  | depthBiasClamp => "depthBiasClamp"
  | fillModeNonSolid => "fillModeNonSolid"
  | depthBounds => "depthBounds"
  | wideLines => "wideLines"
  | largePoints => "largePoints"
  | alphaToOne => "alphaToOne"
  | multiViewport => "multiViewport"
  | samplerAnisotropy => "samplerAnisotropy"
  | textureCompressionETC2 => "textureCompressionETC2"
  | textureCompressionASTC_LDR => "textureCompressionASTC_LDR"
  | textureCompressionBC => "textureCompressionBC"
  | occlusionQueryPrecise => "occlusionQueryPrecise"
  | pipelineStatisticsQuery => "pipelineStatisticsQuery"
  | vertexPipelineStoresAndAtomics => "vertexPipelineStoresAndAtomics"
  | fragmentStoresAndAtomics => "fragmentStoresAndAtomics"
  | shaderTessellationAndGeometryPointSize => "shaderTessellationAndGeometryPointSize"
  | shaderImageGatherExtended => "shaderImageGatherExtended"
  | shaderStorageImageExtendedFormats => "shaderStorageImageExtendedFormats"
  | shaderStorageImageMultisample => "shaderStorageImageMultisample"
  | shaderStorageImageReadWithoutFormat => "shaderStorageImageReadWithoutFormat"
  | shaderStorageImageWriteWithoutFormat => "shaderStorageImageWriteWithoutFormat"
  | shaderUniformBufferArrayDynamicIndexing => "shaderUniformBufferArrayDynamicIndexing"
  | shaderSampledImageArrayDynamicIndexing => "shaderSampledImageArrayDynamicIndexing"
  | shaderStorageBufferArrayDynamicIndexing => "shaderStorageBufferArrayDynamicIndexing"
  | shaderStorageImageArrayDynamicIndexing => "shaderStorageImageArrayDynamicIndexing"
  | shaderClipDistance => "shaderClipDistance"
  | shaderCullDistance => "shaderCullDistance"
  | shaderFloat64 => "shaderFloat64"
  | shaderInt64 => "shaderInt64"
  | shaderInt16 => "shaderInt16"
  | shaderResourceResidency => "shaderResourceResidency"
  | shaderResourceMinLod => "shaderResourceMinLod"
  | sparseBinding => "sparseBinding"
  | sparseResidencyBuffer => "sparseResidencyBuffer"
  | sparseResidencyImage2D => "sparseResidencyImage2D"
  | sparseResidencyImage3D => "sparseResidencyImage3D"
  | sparseResidency2Samples => "sparseResidency2Samples"
  | sparseResidency4Samples => "sparseResidency4Samples"
  | sparseResidency8Samples => "sparseResidency8Samples"
  | sparseResidency16Samples => "sparseResidency16Samples"
  | sparseResidencyAliased => "sparseResidencyAliased"
  | variableMultisampleRate => "variableMultisampleRate"
  | inheritedQueries => "inheritedQueries"
  end%string.

(** The generic routine the two functions spell out by hand: visit the
    members in list order, read both inputs as they were on entry, call
    the callback with the member's identifier, and store the result. *)
Fixpoint schema_binary {S : Type} (fields : list Field) (f : binary_func S)
    (a0 b0 out : VkPhysicalDeviceFeatures) (s : S)
    : VkPhysicalDeviceFeatures * S :=
  match fields with
  | [] => (out, s)
  | x :: rest =>
      let '(v, s') := f s (a0 x) (b0 x) (field_name x) in
      schema_binary rest f a0 b0 (set_field out x v) s'
  end.

(** A unary callback used where a binary one is expected. *)
Definition ignore_second {S : Type} (f : unary_func S) : binary_func S :=
  fun s x _ name => f s x name.

(** A callback without state, and one that also records its arguments. *)
Definition pure_binary (g : VkBool32 -> VkBool32 -> string -> VkBool32)
    : binary_func unit :=
  fun s x y name => (g x y name, s).

Definition pure_unary (g : VkBool32 -> string -> VkBool32) : unary_func unit :=
  fun s x name => (g x name, s).

Definition logging_binary (g : VkBool32 -> VkBool32 -> string -> VkBool32)
    : binary_func (list (VkBool32 * VkBool32 * string)) :=
  fun log x y name => (g x y name, log ++ [(x, y, name)]).

Definition logging_unary (g : VkBool32 -> string -> VkBool32)
    : unary_func (list (VkBool32 * string)) :=
  fun log x name => (g x name, log ++ [(x, name)]).

End Features.

(** ** Reading a constant out of a blob *)

Module Blob.

(** The bytes [[off, off + sz)] of a blob. *)
Definition slice (data : list Byte.byte) (off sz : Z) : list Byte.byte :=
  firstn (Z.to_nat sz) (skipn (Z.to_nat off) data).

Definition table_C2 : Specialization.VkSpecializationInfo :=
  {| Specialization.mapEntryCount := 1;
     Specialization.pMapEntries :=
       [ {| Specialization.constantID := 2;
            Specialization.offset := 1;
            Specialization.size := 1 |} ];
     Specialization.dataSize := 2;
     Specialization.pData := [Byte.x05; Byte.x06] |}.

End Blob.

(** ** Using the closure *)

Module ClosureUse.
Import Closure.

Definition is_submit (c : vkcall) : bool :=
  match c with vkQueueSubmit _ _ _ _ => true | _ => false end.

Definition is_free (c : vkcall) : bool :=
  match c with vkFreeCommandBuffers _ _ _ _ => true | _ => false end.

Definition is_destroy (c : vkcall) : bool :=
  match c with vkDestroyCommandPool _ _ => true | _ => false end.

(** The calls [beginOneSubmitCommands] may make. *)
Definition is_setup (c : vkcall) : bool :=
  match c with
  | vkCreateCommandPool _ _ => true
  | vkAllocateCommandBuffers _ _ => true
  | vkBeginCommandBuffer _ _ => true
  | _ => false
  end.

(** The create-info and allocate-info structures that
    [beginOneSubmitCommands] fills in. *)
Definition poolCreate_of (this : QueueClosure) : VkCommandPoolCreateInfo :=
  {| poolCreate_sType := VK_STRUCTURE_TYPE_COMMAND_POOL_CREATE_INFO;
     poolCreate_queueFamilyIndex := mFamilyIdx this;
     poolCreate_flags := VK_COMMAND_POOL_CREATE_TRANSIENT_BIT |}.

Definition allocInfo_of (pool : VkCommandPool) : VkCommandBufferAllocateInfo :=
  {| alloc_sType := VK_STRUCTURE_TYPE_COMMAND_BUFFER_ALLOCATE_INFO;
     alloc_commandBufferCount := 1;
     alloc_commandPool := pool;
     alloc_level := VK_COMMAND_BUFFER_LEVEL_PRIMARY |}.

Definition beginInfo_one_time : VkCommandBufferBeginInfo :=
  {| begin_sType := VK_STRUCTURE_TYPE_COMMAND_BUFFER_BEGIN_INFO;
     begin_flags := VK_COMMAND_BUFFER_USAGE_ONE_TIME_SUBMIT_BIT |}.

(** A caller that lets the closure create its own pool and finishes right
    away (the commands recorded in between are not calls of this
    module). *)
Definition begin_then_finish (NDEBUG : bool)
    (sSingleSubmitTemplate : VkSubmitInfo)
    (this : QueueClosure) (aWaitSemaphores aSignalSemaphores : list VkSemaphore)
    (aFence : VkFence) (aShouldWait : bool) : prog (VkResult * QueueClosure) :=
  bind (beginOneSubmitCommands NDEBUG this VK_NULL_HANDLE)
    (fun r =>
       finishOneSubmitCommands sSingleSubmitTemplate (snd r) (fst r)
         aWaitSemaphores aSignalSemaphores aFence aShouldWait).

End ClosureUse.

(** * Device scoring and selection *)

Section DeviceFacts.
Import Device.

Variable host : PhysicalDeviceQueries.

(** Bit [n] of the accumulated mask: it was set already, or the required
    mask has it and so does a family that owns a queue. *)
Lemma confirm_fold_testbit (mask : Z) (l : list VkQueueFamilyProperties) :
  forall (acc n : Z), 0 <= n ->
    Z.testbit (fold_left (confirm_step mask) l acc) n =
    Z.testbit acc n
    || (Z.testbit mask n
        && existsb (fun q => (queueCount q >? 0) && Z.testbit (queueFlags q) n) l).
Proof.
  induction l as [| q l IH]; intros acc n Hn; simpl.
  - now rewrite andb_false_r, orb_false_r.
  - rewrite IH by assumption. unfold confirm_step.
    destruct (queueCount q >? 0); simpl.
    + rewrite Z.lor_spec, Z.land_spec.
      destruct (Z.testbit acc n), (Z.testbit mask n),
        (Z.testbit (queueFlags q) n); reflexivity.
    + reflexivity.
Qed.

Lemma land_mask_iff (mask flags : Z) :
  Z.land mask flags = mask <->
  forall n, 0 <= n -> Z.testbit mask n = true -> Z.testbit flags n = true.
Proof.
  split.
  - intros H n Hn Hm. rewrite <- H, Z.land_spec in Hm.
    now apply andb_true_iff in Hm.
  - intros H. apply Z.bits_inj'. intros n Hn. rewrite Z.land_spec.
    destruct (Z.testbit mask n) eqn:E; [| reflexivity].
    now rewrite (H n Hn E).
Qed.

(** The gate for an arbitrary mask: every required bit is offered by some
    family that has a queue, not necessarily the same family for all bits. *)
Lemma confirm_queue_fam_iff (d : VkPhysicalDevice) (mask : Z) :
  confirm_queue_fam host d mask = true <->
  forall n, 0 <= n -> Z.testbit mask n = true ->
    exists q, In q (vkGetPhysicalDeviceQueueFamilyProperties host d)
              /\ 0 < queueCount q /\ Z.testbit (queueFlags q) n = true.
Proof.
  unfold confirm_queue_fam. cbv zeta. rewrite Z.eqb_eq. split.
  - intros H n Hn Hm.
    assert (E := confirm_fold_testbit mask
                   (vkGetPhysicalDeviceQueueFamilyProperties host d) 0 n Hn).
    rewrite H, Hm, Z.bits_0 in E. simpl in E. symmetry in E.
    apply existsb_exists in E. destruct E as [q [Hq Hb]].
    apply andb_true_iff in Hb. destruct Hb as [Hc Hf].
    exists q. repeat split; [assumption | lia | assumption].
  - intros H. apply Z.bits_inj'. intros n Hn.
    rewrite confirm_fold_testbit by assumption. rewrite Z.bits_0. simpl.
    destruct (Z.testbit mask n) eqn:Hm; [| reflexivity]. simpl.
    destruct (H n Hn Hm) as [q [Hq [Hc Hf]]].
    apply existsb_exists. exists q. split; [assumption |].
    apply andb_true_iff. split; [lia | assumption].
Qed.

Lemma testbit_graphics (n : Z) :
  0 <= n -> Z.testbit VK_QUEUE_GRAPHICS_BIT n = (n =? 0).
Proof.
  intros Hn. change VK_QUEUE_GRAPHICS_BIT with (2 ^ 0).
  rewrite Z.pow2_bits_eqb by lia. apply Z.eqb_sym.
Qed.

Lemma testbit_compute (n : Z) :
  0 <= n -> Z.testbit VK_QUEUE_COMPUTE_BIT n = (n =? 1).
Proof.
  intros Hn. change VK_QUEUE_COMPUTE_BIT with (2 ^ 1).
  rewrite Z.pow2_bits_eqb by lia. apply Z.eqb_sym.
Qed.

Lemma has_graphics_family_iff (d : VkPhysicalDevice) :
  has_family host d VK_QUEUE_GRAPHICS_BIT <->
  exists q, In q (vkGetPhysicalDeviceQueueFamilyProperties host d)
            /\ 0 < queueCount q /\ Z.testbit (queueFlags q) 0 = true.
Proof.
  unfold has_family, family_satisfies.
  split; intros [q [Hq H]]; exists q; (split; [assumption |]).
  - destruct H as [Hl Hc]. split; [assumption |].
    apply (proj1 (land_mask_iff _ _) Hl 0); [lia |].
    now rewrite testbit_graphics by lia.
  - destruct H as [Hc Hb]. split; [| assumption].
    apply land_mask_iff. intros n Hn Hm.
    rewrite testbit_graphics in Hm by assumption.
    apply Z.eqb_eq in Hm. now subst n.
Qed.

Lemma has_compute_family_iff (d : VkPhysicalDevice) :
  has_family host d VK_QUEUE_COMPUTE_BIT <->
  exists q, In q (vkGetPhysicalDeviceQueueFamilyProperties host d)
            /\ 0 < queueCount q /\ Z.testbit (queueFlags q) 1 = true.
Proof.
  unfold has_family, family_satisfies.
  split; intros [q [Hq H]]; exists q; (split; [assumption |]).
  - destruct H as [Hl Hc]. split; [assumption |].
    apply (proj1 (land_mask_iff _ _) Hl 1); [lia |].
    now rewrite testbit_compute by lia.
  - destruct H as [Hc Hb]. split; [| assumption].
    apply land_mask_iff. intros n Hn Hm.
    rewrite testbit_compute in Hm by assumption.
    apply Z.eqb_eq in Hm. now subst n.
Qed.

(** The gate of the scorer passes exactly when graphics is offered by a
    family with a queue and compute is offered by a family with a queue. *)
Lemma gate_iff (d : VkPhysicalDevice) :
  confirm_queue_fam host d (Z.lor VK_QUEUE_GRAPHICS_BIT VK_QUEUE_COMPUTE_BIT)
    = true <->
  has_family host d VK_QUEUE_GRAPHICS_BIT
  /\ has_family host d VK_QUEUE_COMPUTE_BIT.
Proof.
  rewrite confirm_queue_fam_iff, has_graphics_family_iff, has_compute_family_iff.
  split.
  - intros H. split; [apply (H 0) | apply (H 1)]; try lia; reflexivity.
  - intros [Hg Hc] n Hn Hm.
    rewrite Z.lor_spec, testbit_graphics, testbit_compute in Hm by assumption.
    apply orb_true_iff in Hm.
    destruct Hm as [Hm | Hm]; apply Z.eqb_eq in Hm; subst n; assumption.
Qed.

Lemma base_score_nonneg (t : VkPhysicalDeviceType) : 0 <= base_score t.
Proof. destruct t; cbv; discriminate. Qed.

Lemma family_both_splits (q : VkQueueFamilyProperties) :
  family_satisfies (Z.lor VK_QUEUE_GRAPHICS_BIT VK_QUEUE_COMPUTE_BIT) q ->
  family_satisfies VK_QUEUE_GRAPHICS_BIT q
  /\ family_satisfies VK_QUEUE_COMPUTE_BIT q.
Proof.
  unfold family_satisfies. intros [Hl Hc].
  pose proof (proj1 (land_mask_iff _ _) Hl) as Hb.
  split; (split; [| assumption]); apply land_mask_iff; intros n Hn Hm;
    apply Hb; try assumption; rewrite Z.lor_spec, Hm;
    [reflexivity | apply orb_true_r].
Qed.

End DeviceFacts.

Section ScoreClaims.
Import Device.

(** C1 (as amended): [score_physical_device] returns the sentinel -1
    exactly when it is not the case that some queue family with at least
    one queue offers graphics and some queue family with at least one queue
    offers compute; the two families may differ.  Whenever both are
    offered, and so in particular whenever one family offers both, the
    base device-type score is returned unmodified. *)
Theorem score_ineligible_iff_capability_missing :
  forall (host : PhysicalDeviceQueries) (d : VkPhysicalDevice),
    (score_physical_device host d = -1 <->
       ~ (has_family host d VK_QUEUE_GRAPHICS_BIT
          /\ has_family host d VK_QUEUE_COMPUTE_BIT))
    /\ (has_family host d VK_QUEUE_GRAPHICS_BIT
        /\ has_family host d VK_QUEUE_COMPUTE_BIT ->
        score_physical_device host d =
        base_score (deviceType (vkGetPhysicalDeviceProperties host d)))
    /\ (has_family host d (Z.lor VK_QUEUE_GRAPHICS_BIT VK_QUEUE_COMPUTE_BIT) ->
        has_family host d VK_QUEUE_GRAPHICS_BIT
        /\ has_family host d VK_QUEUE_COMPUTE_BIT).
Proof.
  intros host d.
  pose proof (gate_iff host d) as G.
  pose proof (base_score_nonneg
                (deviceType (vkGetPhysicalDeviceProperties host d))) as B.
  unfold score_physical_device. cbv zeta.
  destruct (confirm_queue_fam host d
              (Z.lor VK_QUEUE_GRAPHICS_BIT VK_QUEUE_COMPUTE_BIT)) eqn:E.
  - split; [split | split].
    + intros H. lia.
    + intros H. exfalso. apply H, G. reflexivity.
    + intros _. reflexivity.
    + intros [q [Hq Hs]].
      split; exists q; (split; [assumption |]); apply (family_both_splits q Hs).
  - split; [split | split].
    + intros _ H. apply G in H. discriminate.
    + intros _. reflexivity.
    + intros H. apply G in H. discriminate.
    + intros [q [Hq Hs]].
      split; exists q; (split; [assumption |]); apply (family_both_splits q Hs).
Qed.

(** C1 fails as stated: device 4 of [sample_host] offers graphics in one
    family and compute in another, no family offers both, and it is
    scored 4000 rather than -1. *)
Lemma score_split_families_counterexample :
  ~ (score_physical_device Examples.sample_host 4 = -1 <->
     ~ has_family Examples.sample_host 4
         (Z.lor VK_QUEUE_GRAPHICS_BIT VK_QUEUE_COMPUTE_BIT)).
Proof.
  intros [_ H].
  assert (S : score_physical_device Examples.sample_host 4 = 4000)
    by reflexivity.
  rewrite S in H. enough (4000 = -1) by discriminate. apply H.
  intros [q [Hq [Hl _]]]. simpl in Hq.
  destruct Hq as [Hq | [Hq | []]]; subst q; vm_compute in Hl; discriminate.
Qed.

(** C7: among devices that pass the queue-capability gate, and whatever
    feature bits the host reports for them, a discrete device scores
    strictly above a virtual one, which scores strictly above an
    integrated one, which scores strictly above a CPU one, which scores
    strictly above one of type "other". *)
Theorem score_strictly_monotonic_in_device_type :
  forall (host : PhysicalDeviceQueries)
         (features : VkPhysicalDevice -> VkPhysicalDeviceFeatures)
         (dDisc dVirt dInt dCpu dOther : VkPhysicalDevice),
    let gate d := confirm_queue_fam host d
                    (Z.lor VK_QUEUE_GRAPHICS_BIT VK_QUEUE_COMPUTE_BIT) in
    let type d := deviceType (vkGetPhysicalDeviceProperties host d) in
    let score := score_physical_device (with_features host features) in
    gate dDisc = true -> gate dVirt = true -> gate dInt = true ->
    gate dCpu = true -> gate dOther = true ->
    type dDisc = VK_PHYSICAL_DEVICE_TYPE_DISCRETE_GPU ->
    type dVirt = VK_PHYSICAL_DEVICE_TYPE_VIRTUAL_GPU ->
    type dInt = VK_PHYSICAL_DEVICE_TYPE_INTEGRATED_GPU ->
    type dCpu = VK_PHYSICAL_DEVICE_TYPE_CPU ->
    type dOther = VK_PHYSICAL_DEVICE_TYPE_OTHER ->
    score dOther < score dCpu
    /\ score dCpu < score dInt
    /\ score dInt < score dVirt
    /\ score dVirt < score dDisc.
Proof.
  intros host features dDisc dVirt dInt dCpu dOther gate type score
    G1 G2 G3 G4 G5 T1 T2 T3 T4 T5.
  subst gate type score. unfold score_physical_device. cbv zeta.
  change (confirm_queue_fam (with_features host features))
    with (confirm_queue_fam host).
  change (vkGetPhysicalDeviceProperties (with_features host features))
    with (vkGetPhysicalDeviceProperties host).
  rewrite G1, G2, G3, G4, G5, T1, T2, T3, T4, T5.
  cbv. repeat split.
Qed.

(** C7 on [sample_host], with every feature bit switched on. *)
Lemma score_strictly_monotonic_witness :
  let score :=
    score_physical_device
      (with_features Examples.sample_host (fun _ => [true; true; true])) in
  score 7 < score 6 /\ score 6 < score 1
  /\ score 1 < score 5 /\ score 5 < score 2.
Proof.
  apply (score_strictly_monotonic_in_device_type Examples.sample_host
           (fun _ => [true; true; true]) 2 5 1 6 7);
    reflexivity.
Defined.

End ScoreClaims.

Section SelectClaims.
Import Device.

Variable host : PhysicalDeviceQueries.

Local Abbreviation score := (score_physical_device host).

Lemma at_index_snoc_old (seen : list VkPhysicalDevice) (d : VkPhysicalDevice) (j : nat) :
  (j < length seen)%nat -> at_index (seen ++ [d]) j = at_index seen j.
Proof. intros H. unfold at_index. now rewrite app_nth1. Qed.

Lemma at_index_snoc_new (seen : list VkPhysicalDevice) (d : VkPhysicalDevice) :
  at_index (seen ++ [d]) (length seen) = d.
Proof. unfold at_index. rewrite app_nth2, Nat.sub_diag by lia. reflexivity. Qed.

Lemma select_invariant_step (seen : list VkPhysicalDevice) (d : VkPhysicalDevice)
    (high_score : Z) (max_index : nat) :
  select_invariant host seen high_score max_index ->
  if score d >? high_score
  then select_invariant host (seen ++ [d]) (score d) (length seen)
  else select_invariant host (seen ++ [d]) high_score max_index.
Proof.
  intros Inv. destruct (score d >? high_score) eqn:E.
  - apply Z.gtb_lt in E. right.
    assert (L : length (seen ++ [d]) = S (length seen))
      by (rewrite length_app; simpl; lia).
    rewrite L.
    assert (Hold : forall j, (j < length seen)%nat ->
                     score (at_index seen j) <= high_score).
    { destruct Inv as [[Hh Hall] | [_ [_ [_ [Hle _]]]]].
      - intros j Hj. rewrite Hh. apply Hall. apply nth_In. exact Hj.
      - exact Hle. }
    assert (Hhs : -1 <= high_score) by (destruct Inv as [[? _] | [? _]]; lia).
    split; [lia |]. split; [lia |]. split; [now rewrite at_index_snoc_new |].
    split.
    + intros j Hj. destruct (Nat.eq_dec j (length seen)) as [-> | Hne].
      * rewrite at_index_snoc_new. lia.
      * rewrite at_index_snoc_old by lia. specialize (Hold j). lia.
    + intros j Hj. rewrite at_index_snoc_old by lia. specialize (Hold j). lia.
  - assert (E' : score d <= high_score).
    { destruct (Z.gtb_spec (score d) high_score); [discriminate | lia]. }
    destruct Inv as [[Hh Hall] | [H0 [Hmi [Hsc [Hle Hlt]]]]].
    + left. split; [assumption |]. intros x Hx.
      apply in_app_or in Hx. destruct Hx as [Hx | [<- | []]]; [auto | lia].
    + right.
      assert (L : length (seen ++ [d]) = S (length seen))
        by (rewrite length_app; simpl; lia).
      rewrite L.
      split; [assumption |]. split; [lia |].
      split; [now rewrite at_index_snoc_old |]. split.
      * intros j Hj. destruct (Nat.eq_dec j (length seen)) as [-> | Hne].
        -- now rewrite at_index_snoc_new.
        -- rewrite at_index_snoc_old by lia. apply Hle. lia.
      * intros j Hj. rewrite at_index_snoc_old by lia. now apply Hlt.
Qed.

Lemma select_loop_invariant (rest : list VkPhysicalDevice) :
  forall (seen : list VkPhysicalDevice) (high_score : Z) (max_index : nat),
    select_invariant host seen high_score max_index ->
    select_invariant host (seen ++ rest)
      (fst (select_loop host rest (length seen) high_score max_index))
      (snd (select_loop host rest (length seen) high_score max_index)).
Proof.
  induction rest as [| d rest IH]; intros seen high_score max_index Inv.
  - simpl. now rewrite app_nil_r.
  - simpl. pose proof (select_invariant_step seen d high_score max_index Inv) as St.
    replace (seen ++ d :: rest) with ((seen ++ [d]) ++ rest)
      by (rewrite <- app_assoc; reflexivity).
    replace (S (length seen)) with (length (seen ++ [d]))
      by (rewrite length_app; simpl; lia).
    destruct (score d >? high_score).
    + specialize (IH (seen ++ [d]) (score d) (length seen) St).
      rewrite length_app in *. simpl in *.
      replace (length seen + 1)%nat with (S (length seen)) in * by lia.
      exact IH.
    + apply IH. exact St.
Qed.

Lemma select_loop_final (aDevices : list VkPhysicalDevice) :
  select_invariant host aDevices
    (fst (select_loop host aDevices 0 (-1) 0))
    (snd (select_loop host aDevices 0 (-1) 0)).
Proof.
  apply (select_loop_invariant aDevices [] (-1) 0%nat).
  left. split; [reflexivity |]. intros d [].
Qed.

(** C2: if no device of the list is eligible (the empty list included)
    the null handle is returned; otherwise the device returned is an
    eligible one whose score is maximal in the list, and it sits before
    every other device reaching that score. *)
Theorem select_physical_device_first_best :
  forall aDevices : list VkPhysicalDevice,
    ((forall d, In d aDevices -> score d < 0) ->
       select_physical_device host aDevices = VK_NULL_HANDLE)
    /\ ((exists d, In d aDevices /\ 0 <= score d) ->
        exists i,
          (i < length aDevices)%nat
          /\ select_physical_device host aDevices = at_index aDevices i
          /\ 0 <= score (at_index aDevices i)
          /\ (forall j, (j < length aDevices)%nat ->
                 score (at_index aDevices j) <= score (at_index aDevices i))
          /\ (forall j, (j < i)%nat ->
                 score (at_index aDevices j) < score (at_index aDevices i))).
Proof.
  intros aDevices. pose proof (select_loop_final aDevices) as Inv.
  unfold select_physical_device.
  destruct (select_loop host aDevices 0 (-1) 0) as [high_score max_index].
  simpl in Inv. split.
  - intros Hnone.
    destruct Inv as [[Hh _] | [H0 [Hmi [Hsc _]]]].
    + subst high_score. reflexivity.
    + exfalso. specialize (Hnone (at_index aDevices max_index)).
      assert (In (at_index aDevices max_index) aDevices)
        by (apply nth_In; exact Hmi).
      specialize (Hnone H). lia.
  - intros [d [Hd Hs]].
    destruct Inv as [[Hh Hall] | [H0 [Hmi [Hsc [Hle Hlt]]]]].
    + exfalso. specialize (Hall d Hd). lia.
    + exists max_index.
      assert (G : (high_score >=? 0) = true) by (apply Z.geb_le; lia).
      rewrite G, Hsc. repeat split; assumption.
Qed.

End SelectClaims.

(** C2 on concrete lists: without an eligible device the result is the
    null handle; devices 2 and 4 tie at 4000 and the earlier one wins. *)
Lemma select_physical_device_first_best_witness :
  Device.select_physical_device Examples.sample_host [3; 9] = VK_NULL_HANDLE
  /\ exists i,
       (i < 5)%nat
       /\ Device.select_physical_device Examples.sample_host [9; 1; 2; 4; 3]
          = Device.at_index [9; 1; 2; 4; 3] i
       /\ 0 <= Device.score_physical_device Examples.sample_host
                 (Device.at_index [9; 1; 2; 4; 3] i)
       /\ (forall j, (j < 5)%nat ->
              Device.score_physical_device Examples.sample_host
                (Device.at_index [9; 1; 2; 4; 3] j)
              <= Device.score_physical_device Examples.sample_host
                   (Device.at_index [9; 1; 2; 4; 3] i))
       /\ (forall j, (j < i)%nat ->
              Device.score_physical_device Examples.sample_host
                (Device.at_index [9; 1; 2; 4; 3] j)
              < Device.score_physical_device Examples.sample_host
                  (Device.at_index [9; 1; 2; 4; 3] i)).
Proof.
  split.
  - apply (proj1 (select_physical_device_first_best Examples.sample_host [3; 9])).
    intros d [<- | [<- | []]]; vm_compute; reflexivity.
  - apply (proj2 (select_physical_device_first_best Examples.sample_host
                    [9; 1; 2; 4; 3])).
    exists 2. split; [simpl; tauto | vm_compute; discriminate].
Defined.

(** * Specialization-table merge *)

Section MergeFacts.
Import Specialization.

Lemma std_copy_fits {T : Type} (src dst : list T) (pos : nat) :
  (pos + length src <= length dst)%nat ->
  std_copy src dst pos =
  Some (firstn pos dst ++ src ++ skipn (pos + length src) dst,
        (pos + length src)%nat).
Proof.
  intros H. unfold std_copy.
  destruct (Nat.leb_spec (pos + length src) (length dst)); [reflexivity | lia].
Qed.

Lemma std_copy_inv {T : Type} (src dst dst' : list T) (pos tail : nat) :
  std_copy src dst pos = Some (dst', tail) ->
  (pos + length src <= length dst)%nat
  /\ tail = (pos + length src)%nat
  /\ length dst' = length dst.
Proof.
  unfold std_copy.
  destruct (Nat.leb_spec (pos + length src) (length dst)) as [L | L];
    [| discriminate].
  intros E. injection E as <- <-. repeat split; [assumption |].
  rewrite !length_app, length_firstn, length_skipn. lia.
Qed.

Lemma range_whole {T : Type} (p : list T) (n : Z) :
  n = Z.of_nat (length p) -> range p n = p.
Proof.
  intros ->. unfold range. rewrite Nat2Z.id. apply firstn_all.
Qed.

Lemma skipn_repeat {T : Type} (x : T) (k n : nat) :
  skipn k (repeat x (k + n)) = repeat x n.
Proof. induction k as [| k IH]; simpl; [reflexivity | exact IH]. Qed.

(** Copying a whole prefix and then the rest over a zero-filled vector of
    the right length leaves exactly the two sources, one after the other;
    this is the shape of both the entry vector and the data vector. *)
Lemma fill_two {S T : Type} (zero : T) (xs : list T) (ys : list S)
    (op : S -> T) (n : nat) :
  n = (length xs + length ys)%nat ->
  exists mid,
    std_copy xs (repeat zero n) 0 = Some (mid, length xs)
    /\ std_transform op ys mid (length xs) =
       Some (xs ++ map op ys, (length xs + length ys)%nat).
Proof.
  intros ->. exists (xs ++ repeat zero (length ys)). split.
  - rewrite std_copy_fits by (rewrite repeat_length; simpl; lia).
    simpl. now rewrite skipn_repeat.
  - unfold std_transform.
    rewrite std_copy_fits
      by (rewrite length_map, length_app, repeat_length; lia).
    rewrite length_map.
    rewrite firstn_app, firstn_all, Nat.sub_diag. simpl. rewrite app_nil_r.
    rewrite skipn_all2 by (rewrite length_app, repeat_length; lia).
    now rewrite app_nil_r.
Qed.

(** With arrays matching their counts and vector sizes that do not wrap,
    the function returns, and returns the two sources laid end to end. *)
Lemma concat_specialization_info_defined (a b : VkSpecializationInfo) :
  well_formed a -> well_formed b ->
  mapEntryCount a + mapEntryCount b < UINT32_MOD ->
  dataSize a + dataSize b < SIZE_MOD ->
  concat_specialization_info a b = Some (merged a b).
Proof.
  intros (Ca & _ & Da & _ & _) (Cb & _ & Db & _ & _) Hc Hd.
  unfold concat_specialization_info.
  rewrite (range_whole (pMapEntries a)), (range_whole (pMapEntries b)),
    (range_whole (pData a)), (range_whole (pData b)) by assumption.
  assert (Nc : Z.to_nat (to_uint32 (mapEntryCount a + mapEntryCount b))
               = (length (pMapEntries a) + length (pMapEntries b))%nat).
  { unfold to_uint32. rewrite Z.mod_small by lia. lia. }
  assert (Nd : Z.to_nat (to_size_t (dataSize a + dataSize b))
               = (length (pData a) + length (pData b))%nat).
  { unfold to_size_t. rewrite Z.mod_small by lia. lia. }
  destruct (fill_two zero_entry (pMapEntries a) (pMapEntries b)
              (addOffset (to_uint32 (Z.of_nat (length (pData a))))) _ Nc)
    as (midE & E1 & E2).
  destruct (fill_two Byte.x00 (pData a) (pData b) (fun x => x) _ Nd)
    as (midD & D1 & D2).
  unfold std_transform in D2. rewrite map_id in D2.
  rewrite E1, D1, D2, E2. unfold merged. cbv zeta.
  rewrite <- Da. repeat f_equal.
  - rewrite length_app, length_map. unfold to_uint32.
    rewrite Z.mod_small by lia. lia.
  - rewrite length_app. lia.
Qed.

End MergeFacts.

Section MergeClaims.
Import Specialization.

Lemma add_offset_zero (l : list VkSpecializationMapEntry) :
  Forall entry_in_range l -> map (addOffset (to_uint32 0)) l = l.
Proof.
  induction 1 as [| e l He _ IH]; simpl; [reflexivity |].
  rewrite IH. f_equal. destruct e as [c o s], He as (_ & Ho & _).
  unfold addOffset, to_uint32. simpl in *.
  rewrite Z.mod_0_l by (cbv; discriminate).
  rewrite Z.add_0_r, Z.mod_small by assumption. reflexivity.
Qed.

Lemma well_formed_empty (i : VkSpecializationInfo) :
  well_formed i -> is_empty i -> pMapEntries i = [] /\ pData i = [].
Proof.
  intros (C & _ & D & _ & _) [Ec Ed]. rewrite Ec in C. rewrite Ed in D.
  split; apply length_zero_iff_nil; lia.
Qed.

(** The function returns only when neither vector size wrapped. *)
Lemma concat_specialization_info_some_inv (a b : VkSpecializationInfo) r :
  well_formed a -> well_formed b ->
  concat_specialization_info a b = Some r ->
  mapEntryCount a + mapEntryCount b < UINT32_MOD
  /\ dataSize a + dataSize b < SIZE_MOD.
Proof.
  intros (Ca & _ & Da & _ & _) (Cb & _ & Db & _ & _).
  unfold concat_specialization_info.
  rewrite (range_whole (pMapEntries a)), (range_whole (pMapEntries b)),
    (range_whole (pData a)), (range_whole (pData b)) by assumption.
  destruct (std_copy (pMapEntries a) _ 0) as [[e1 t1] |] eqn:E1;
    [| discriminate].
  destruct (std_copy (pData a) _ 0) as [[d1 t2] |] eqn:D1; [| discriminate].
  destruct (std_copy (pData b) d1 t2) as [[d2 t3] |] eqn:D2; [| discriminate].
  destruct (std_transform _ (pMapEntries b) e1 t1) as [[e2 t4] |] eqn:E2;
    [| discriminate].
  intros _. unfold std_transform in E2.
  apply std_copy_inv in E1, D1, D2, E2.
  destruct E1 as (_ & -> & L1), D1 as (_ & -> & L2),
    D2 as (F2 & _ & _), E2 as (F1 & _ & _).
  rewrite length_map, L1, repeat_length in F1.
  rewrite L2, repeat_length in F2. simpl in F1, F2.
  unfold to_uint32 in F1. unfold to_size_t in F2.
  assert (M1 : 0 <= (mapEntryCount a + mapEntryCount b) mod UINT32_MOD
               < UINT32_MOD) by (apply Z.mod_pos_bound; reflexivity).
  assert (M2 : 0 <= (dataSize a + dataSize b) mod SIZE_MOD < SIZE_MOD)
    by (apply Z.mod_pos_bound; reflexivity).
  split; lia.
Qed.

(** C3 (as amended): for tables whose arrays match their counts, whose
    combined entry count fits 32 bits and whose combined blob size fits
    [size_t], the merge returns; the output has countA + countB entries
    over a blob of sizeA + sizeB bytes; A's entries and bytes come first,
    unchanged, and B's bytes follow; every entry of B keeps its identifier
    and size, and its offset is its original offset plus sizeA reduced
    modulo 2^32, which is the original offset plus sizeA whenever that
    sum is below 2^32. *)
Theorem concat_specialization_info_layout :
  forall a b : VkSpecializationInfo,
    well_formed a -> well_formed b ->
    mapEntryCount a + mapEntryCount b < UINT32_MOD ->
    dataSize a + dataSize b < SIZE_MOD ->
    exists entries data out,
      concat_specialization_info a b = Some (entries, data, out)
      /\ pMapEntries out = entries /\ pData out = data
      /\ mapEntryCount out = mapEntryCount a + mapEntryCount b
      /\ Z.of_nat (length entries) = mapEntryCount a + mapEntryCount b
      /\ dataSize out = dataSize a + dataSize b
      /\ Z.of_nat (length data) = dataSize a + dataSize b
      /\ firstn (length (pMapEntries a)) entries = pMapEntries a
      /\ firstn (length (pData a)) data = pData a
      /\ skipn (length (pData a)) data = pData b
      /\ forall k eb, nth_error (pMapEntries b) k = Some eb ->
           exists e,
             nth_error entries (length (pMapEntries a) + k) = Some e
             /\ constantID e = constantID eb
             /\ size e = size eb
             /\ offset e = (offset eb + dataSize a) mod UINT32_MOD
             /\ (offset eb + dataSize a < UINT32_MOD ->
                 offset e = offset eb + dataSize a).
Proof.
  intros a b Wa Wb Hc Hd.
  rewrite (concat_specialization_info_defined a b Wa Wb Hc Hd).
  destruct Wa as (Ca & _ & Da & _ & _), Wb as (Cb & _ & Db & _ & Rb).
  unfold merged. cbv zeta.
  eexists _, _, _. split; [reflexivity |]. cbn [pMapEntries pData mapEntryCount dataSize].
  split; [reflexivity |]. split; [reflexivity |]. split; [reflexivity |].
  split; [rewrite length_app, length_map; lia |].
  split; [reflexivity |].
  split; [rewrite length_app; lia |].
  split; [now rewrite firstn_app, firstn_all, Nat.sub_diag, app_nil_r |].
  split; [now rewrite firstn_app, firstn_all, Nat.sub_diag, app_nil_r |].
  split; [now rewrite skipn_app, skipn_all, Nat.sub_diag |].
  intros k eb Hk.
  exists (addOffset (to_uint32 (dataSize a)) eb).
  split.
  { rewrite nth_error_app2 by lia.
    replace (length (pMapEntries a) + k - length (pMapEntries a))%nat with k
      by lia.
    now apply map_nth_error. }
  assert (E : offset (addOffset (to_uint32 (dataSize a)) eb)
              = (offset eb + dataSize a) mod UINT32_MOD).
  { unfold addOffset, to_uint32. simpl.
    apply Z.add_mod_idemp_r. cbv; discriminate. }
  repeat split; try assumption.
  intros Hfit. rewrite E. apply Z.mod_small.
  rewrite Forall_forall in Rb. apply nth_error_In in Hk.
  destruct (Rb eb Hk) as (_ & Ho & _). lia.
Qed.

Lemma well_formed_table_A4 : well_formed table_A4.
Proof.
  unfold well_formed, table_A4. simpl.
  repeat split; try reflexivity.
  repeat constructor; simpl; try discriminate.
Defined.

Lemma well_formed_table_B8 : well_formed table_B8.
Proof.
  unfold well_formed, table_B8. simpl.
  repeat split; try reflexivity.
  repeat constructor; simpl; try discriminate.
Defined.

Lemma well_formed_table_empty : well_formed table_empty.
Proof.
  unfold well_formed, table_empty. simpl.
  repeat split; try reflexivity. constructor.
Defined.

Lemma well_formed_table_one_constant : well_formed table_one_constant.
Proof.
  unfold well_formed, table_one_constant. simpl.
  repeat split; try reflexivity.
  repeat constructor; simpl; try discriminate.
Defined.

Lemma well_formed_table_4GiB : well_formed table_4GiB.
Proof.
  unfold well_formed, table_4GiB.
  cbn [mapEntryCount pMapEntries dataSize pData].
  split; [reflexivity |]. split; [reflexivity |].
  split; [| split; [reflexivity | constructor]].
  rewrite repeat_length, Z2Nat.id; [reflexivity | discriminate].
Qed.

(** The worked example of the spec: entries [(0,0,4); (1,4,8)] over a
    twelve-byte blob. *)
Lemma concat_specialization_info_layout_witness :
  exists entries data out,
    concat_specialization_info table_A4 table_B8 = Some (entries, data, out)
    /\ Z.of_nat (length entries) = 2
    /\ Z.of_nat (length data) = 12
    /\ exists e, nth_error entries 1 = Some e /\ offset e = 0 + 4.
Proof.
  destruct (concat_specialization_info_layout table_A4 table_B8
              well_formed_table_A4 well_formed_table_B8
              eq_refl eq_refl)
    as (entries & data & out & E & _ & _ & _ & Le & _ & Ld & _ & _ & _ & HB).
  exists entries, data, out.
  split; [exact E |]. split; [exact Le |]. split; [exact Ld |].
  destruct (HB 0%nat {| constantID := 1; offset := 0; size := 8 |} eq_refl)
    as (e & He & _ & _ & _ & Hfit).
  exists e. split; [exact He |]. apply Hfit. reflexivity.
Defined.

(** C3 fails as stated once sizeA reaches 2^32: merging a table whose
    blob is exactly 2^32 bytes long with a table holding one entry at
    offset 0 leaves that entry at offset 0, not at 0 + 2^32. *)
Lemma concat_offset_truncation_counterexample :
  exists entries data out e eb,
    concat_specialization_info table_4GiB table_one_constant
      = Some (entries, data, out)
    /\ nth_error (pMapEntries table_one_constant) 0 = Some eb
    /\ nth_error entries (length (pMapEntries table_4GiB) + 0) = Some e
    /\ offset e = 0
    /\ offset eb + dataSize table_4GiB = 4294967296
    /\ offset e <> offset eb + dataSize table_4GiB.
Proof.
  pose proof (concat_specialization_info_defined table_4GiB table_one_constant
                well_formed_table_4GiB well_formed_table_one_constant
                eq_refl eq_refl) as E.
  unfold merged in E. cbv zeta in E.
  eexists _, _, _, {| constantID := 1; offset := 0; size := 4 |},
    {| constantID := 1; offset := 0; size := 4 |}.
  split; [exact E |].
  split; [reflexivity |]. split; [reflexivity |]. split; [reflexivity |].
  split; [reflexivity | discriminate].
Qed.

(** C6: merging an empty table (no entries, zero-length blob) with a
    table B returns exactly B's entries and B's bytes, and merging a
    table A with an empty table returns exactly A's entries and A's
    bytes; the [out] descriptor equals the non-empty side's. *)
Theorem concat_specialization_info_empty_identity :
  forall a b : VkSpecializationInfo,
    well_formed a -> well_formed b ->
    (is_empty a ->
       concat_specialization_info a b = Some (pMapEntries b, pData b, b))
    /\ (is_empty b ->
        concat_specialization_info a b = Some (pMapEntries a, pData a, a)).
Proof.
  intros a b Wa Wb. split; intros Em.
  - destruct (well_formed_empty a Wa Em) as [Ne Nd]. destruct Em as [Ec Ed].
    pose proof Wb as (Cb & Cb' & Db & Db' & Rb).
    rewrite concat_specialization_info_defined; try assumption; try lia.
    unfold merged. cbv zeta. rewrite Ne, Nd, Ec, Ed.
    rewrite (add_offset_zero _ Rb). simpl.
    destruct b; reflexivity.
  - destruct (well_formed_empty b Wb Em) as [Ne Nd]. destruct Em as [Ec Ed].
    pose proof Wa as (Ca & Ca' & Da & Da' & Ra).
    rewrite concat_specialization_info_defined; try assumption; try lia.
    unfold merged. cbv zeta. rewrite Ne, Nd, Ec, Ed.
    simpl. rewrite !app_nil_r, !Z.add_0_r.
    destruct a; reflexivity.
Qed.

Lemma concat_specialization_info_empty_identity_witness :
  concat_specialization_info table_empty table_B8
    = Some (pMapEntries table_B8, pData table_B8, table_B8)
  /\ concat_specialization_info table_A4 table_empty
     = Some (pMapEntries table_A4, pData table_A4, table_A4).
Proof.
  split.
  - apply (proj1 (concat_specialization_info_empty_identity
                    table_empty table_B8
                    well_formed_table_empty well_formed_table_B8)).
    split; reflexivity.
  - apply (proj2 (concat_specialization_info_empty_identity
                    table_A4 table_empty
                    well_formed_table_A4 well_formed_table_empty)).
    split; reflexivity.
Defined.

(** C8: take two tables whose arrays match their counts, each with every
    entry's byte range inside its own blob, and with sizeA + sizeB below
    2^32.  The merge returns as soon as the combined entry count fits 32
    bits, and whenever it returns its blob has length sizeA + sizeB and
    every entry of the merged table has its byte range inside that
    blob. *)
Theorem concat_specialization_info_preserves_bounds :
  forall a b : VkSpecializationInfo,
    well_formed a -> well_formed b ->
    table_in_bounds a -> table_in_bounds b ->
    dataSize a + dataSize b < UINT32_MOD ->
    (mapEntryCount a + mapEntryCount b < UINT32_MOD ->
       exists r, concat_specialization_info a b = Some r)
    /\ (forall entries data out,
          concat_specialization_info a b = Some (entries, data, out) ->
          Z.of_nat (length data) = dataSize a + dataSize b
          /\ dataSize out = dataSize a + dataSize b
          /\ pMapEntries out = entries
          /\ table_in_bounds out).
Proof.
  intros a b Wa Wb Ba Bb Hfit.
  assert (Hsz : dataSize a + dataSize b < SIZE_MOD).
  { unfold UINT32_MOD, SIZE_MOD in *. lia. }
  split.
  - intros Hc. eexists.
    apply (concat_specialization_info_defined a b Wa Wb Hc Hsz).
  - intros entries data out E.
    destruct (concat_specialization_info_some_inv a b _ Wa Wb E) as [Hc _].
    rewrite (concat_specialization_info_defined a b Wa Wb Hc Hsz) in E.
    unfold merged in E. cbv zeta in E. injection E as <- <- <-.
    destruct Wa as (Ca & _ & Da & _ & Ra), Wb as (Cb & _ & Db & _ & Rb).
    split; [rewrite length_app; lia |]. split; [reflexivity |].
    split; [reflexivity |].
    unfold table_in_bounds in *. cbn [pMapEntries dataSize].
    apply Forall_app. split.
    + apply (Forall_impl _ (P := in_bounds (dataSize a))); [| exact Ba].
      unfold in_bounds. intros e He. lia.
    + apply Forall_map. rewrite Forall_forall in *.
      intros e He. specialize (Rb e He). specialize (Bb e He).
      destruct Rb as (_ & Ho & Hs). unfold in_bounds in *.
      unfold addOffset, to_uint32. cbn [offset size].
      rewrite (Z.mod_small (dataSize a)) by lia.
      rewrite Z.mod_small by lia. lia.
Qed.

Lemma concat_specialization_info_preserves_bounds_witness :
  exists entries data out,
    concat_specialization_info table_A4 table_B8 = Some (entries, data, out)
    /\ dataSize out = 12
    /\ table_in_bounds out.
Proof.
  assert (Ba : table_in_bounds table_A4).
  { repeat constructor. unfold in_bounds. simpl. discriminate. }
  assert (Bb : table_in_bounds table_B8).
  { repeat constructor. unfold in_bounds. simpl. discriminate. }
  destruct (concat_specialization_info_preserves_bounds table_A4 table_B8
              well_formed_table_A4 well_formed_table_B8 Ba Bb eq_refl)
    as [Hret Hinv].
  destruct (Hret eq_refl) as [[[entries data] out] E].
  exists entries, data, out. split; [exact E |].
  destruct (Hinv entries data out E) as (_ & Hs & _ & Hb).
  split; [exact Hs | exact Hb].
Defined.

End MergeClaims.

(** * The submission closure *)

Section ClosureFacts.
Import Closure.

Variable H : Type.
Variable d : driver H.
Variable sSingleSubmitTemplate : VkSubmitInfo.

(** The complete run of [finishOneSubmitCommands], spelled out on the
    answers of the host. *)
Lemma run_finish (this : QueueClosure) (b : VkCommandBuffer)
    (ws ss : list VkSemaphore) (f : VkFence) (w : bool) (h : H) :
  let endAns := d (vkEndCommandBuffer b) h in
  let submitCall :=
    vkQueueSubmit (mQueue this) 1
      (build_submission sSingleSubmitTemplate b ws ss) f in
  let submitAns := d submitCall (snd endAns) in
  let waits := (fst submitAns =? VK_SUCCESS) && w && (f =? VK_NULL_HANDLE) in
  let frees := negb (b =? VK_NULL_HANDLE) && _mCmdPoolInternal this in
  let destroys := negb (_mCommandPool this =? VK_NULL_HANDLE) in
  let dev := device (_mDevicePair this) in
  let pool := _mCommandPool this in
  run_trace d
    (finishOneSubmitCommands sSingleSubmitTemplate this b ws ss f w) h
  = Ev (vkEndCommandBuffer b) (fst endAns)
    :: (if fst endAns =? VK_SUCCESS
        then
          Ev submitCall (fst submitAns)
          :: (if waits
              then [Ev (vkQueueWaitIdle (mQueue this))
                      (fst (d (vkQueueWaitIdle (mQueue this)) (snd submitAns)))]
              else [])
          ++ (if frees then [Ev (vkFreeCommandBuffers dev pool 1 b) tt] else [])
          ++ (if destroys then [Ev (vkDestroyCommandPool dev pool) tt] else [])
        else [])
  /\ run_result d
       (finishOneSubmitCommands sSingleSubmitTemplate this b ws ss f w) h
     = if fst endAns =? VK_SUCCESS
       then Some (fst submitAns,
                  set_mCmdPoolInternal
                    (if destroys then set_mCommandPool this VK_NULL_HANDLE
                     else this) false)
       else None.
Proof.
  cbv zeta. unfold run_trace, run_result, finishOneSubmitCommands,
    _cleanupSubmit, ASSERT_VK_SUCCESS, call.
  simpl.
  destruct (d (vkEndCommandBuffer b) h) as [rE h1]. simpl.
  destruct (rE =? VK_SUCCESS); simpl; [| split; reflexivity].
  destruct (d (vkQueueSubmit (mQueue this) 1
                 (build_submission sSingleSubmitTemplate b ws ss) f) h1)
    as [rS h2]. simpl.
  destruct ((rS =? VK_SUCCESS) && w && (f =? VK_NULL_HANDLE)); simpl;
    [destruct (d (vkQueueWaitIdle (mQueue this)) h2) as [rW h3]; simpl |];
    (destruct (negb (b =? VK_NULL_HANDLE) && _mCmdPoolInternal this); simpl;
     [match goal with
      | |- context [d (vkFreeCommandBuffers ?a ?p ?n ?c) ?s] =>
          destruct (d (vkFreeCommandBuffers a p n c) s) as [[] ?]
      end; simpl |];
     (destruct (negb (_mCommandPool this =? VK_NULL_HANDLE)); simpl;
      [match goal with
       | |- context [d (vkDestroyCommandPool ?a ?p) ?s] =>
           destruct (d (vkDestroyCommandPool a p) s) as [[] ?]
       end; simpl |];
      split; reflexivity)).
Qed.

End ClosureFacts.

Section FinishClaims.
Import Closure.

Variable H : Type.
Variable d : driver H.
Variable sSingleSubmitTemplate : VkSubmitInfo.

Local Abbreviation finish := (finishOneSubmitCommands sSingleSubmitTemplate).

(** The calls of a run of [finishOneSubmitCommands], in order: [okE] is
    whether end-of-recording succeeded, [waits], [frees] and [destroys]
    are the three conditions of the source. *)
Lemma calls_finish (this : QueueClosure) (b : VkCommandBuffer)
    (ws ss : list VkSemaphore) (f : VkFence) (w : bool) (h : H) :
  exists okE submitResult,
    okE = (fst (d (vkEndCommandBuffer b) h) =? VK_SUCCESS)
    /\ submitResult =
       fst (d (vkQueueSubmit (mQueue this) 1
                 (build_submission sSingleSubmitTemplate b ws ss) f)
              (snd (d (vkEndCommandBuffer b) h)))
    /\ calls (run_trace d (finish this b ws ss f w) h)
       = vkEndCommandBuffer b
         :: (if okE
             then
               vkQueueSubmit (mQueue this) 1
                 (build_submission sSingleSubmitTemplate b ws ss) f
               :: (if (submitResult =? VK_SUCCESS) && w && (f =? VK_NULL_HANDLE)
                   then [vkQueueWaitIdle (mQueue this)] else [])
               ++ (if negb (b =? VK_NULL_HANDLE) && _mCmdPoolInternal this
                   then [vkFreeCommandBuffers (device (_mDevicePair this))
                           (_mCommandPool this) 1 b]
                   else [])
               ++ (if negb (_mCommandPool this =? VK_NULL_HANDLE)
                   then [vkDestroyCommandPool (device (_mDevicePair this))
                           (_mCommandPool this)]
                   else [])
             else [])
    /\ (forall e, In e (run_trace d (finish this b ws ss f w) h) ->
          forall r, submit_result_of e = Some r ->
          okE = true /\ r = submitResult)
    /\ (okE = true ->
        exists e, In e (run_trace d (finish this b ws ss f w) h)
                  /\ submit_result_of e = Some submitResult).
Proof.
  destruct (run_finish H d sSingleSubmitTemplate this b ws ss f w h) as [T _].
  cbv zeta in T. eexists _, _. split; [reflexivity |]. split; [reflexivity |].
  rewrite T. clear T.
  destruct (fst (d (vkEndCommandBuffer b) h) =? VK_SUCCESS); simpl.
  - split; [| split].
    + destruct (_ && _ && (f =? VK_NULL_HANDLE)),
        (negb (b =? VK_NULL_HANDLE) && _mCmdPoolInternal this),
        (negb (_mCommandPool this =? VK_NULL_HANDLE)); reflexivity.
    + intros e He r Hr. split; [reflexivity |].
      destruct He as [<- | [<- | He]]; simpl in Hr; try discriminate.
      * now injection Hr.
      * apply in_app_or in He. destruct He as [He | He].
        { destruct (_ && _ && (f =? VK_NULL_HANDLE));
            [destruct He as [<- | []]; discriminate | destruct He]. }
        apply in_app_or in He. destruct He as [He | He].
        { destruct (negb (b =? VK_NULL_HANDLE) && _mCmdPoolInternal this);
            [destruct He as [<- | []]; discriminate | destruct He]. }
        destruct (negb (_mCommandPool this =? VK_NULL_HANDLE));
          [destruct He as [<- | []]; discriminate | destruct He].
    + intros _. eexists. split; [right; left; reflexivity | reflexivity].
  - split; [reflexivity |]. split; [| discriminate].
    intros e [<- | []] r Hr. discriminate.
Qed.

(** Cleanup names no pool but the stored member. *)
Lemma finish_touches_stored_pool_only (this : QueueClosure)
    (b : VkCommandBuffer) (ws ss : list VkSemaphore) (f : VkFence) (w : bool)
    (h : H) (dev : VkDevice) (p : VkCommandPool) :
  (In (vkDestroyCommandPool dev p)
      (calls (run_trace d (finish this b ws ss f w) h)) ->
   p = _mCommandPool this)
  /\ (forall n cb,
        In (vkFreeCommandBuffers dev p n cb)
          (calls (run_trace d (finish this b ws ss f w) h)) ->
        p = _mCommandPool this).
Proof.
  destruct (calls_finish this b ws ss f w h)
    as (okE & submitResult & _ & _ & C & _ & _).
  rewrite C. clear C.
  destruct okE, ((submitResult =? VK_SUCCESS) && w && (f =? VK_NULL_HANDLE)),
    (negb (b =? VK_NULL_HANDLE) && _mCmdPoolInternal this),
    (negb (_mCommandPool this =? VK_NULL_HANDLE)); simpl;
    intuition (try discriminate; try congruence).
Qed.

(** C9: in every run of [finishOneSubmitCommands], and of the overload
    without semaphore lists, the first call made is end-of-recording on
    the command buffer; the submission description is built and
    [vkQueueSubmit] is called only afterwards. *)
Theorem finish_ends_recording_before_submit :
  forall (this : QueueClosure) (b : VkCommandBuffer)
         (ws ss : list VkSemaphore) (f : VkFence) (w : bool) (h : H),
    ends_recording_first b (run_trace d (finish this b ws ss f w) h)
    /\ ends_recording_first b
         (run_trace d
            (finishOneSubmitCommands_fence sSingleSubmitTemplate this b f w) h).
Proof.
  assert (G : forall this b ws ss f w h,
             ends_recording_first b (run_trace d (finish this b ws ss f w) h)).
  { intros this b ws ss f w h.
    destruct (run_finish H d sSingleSubmitTemplate this b ws ss f w h)
      as [T _]. cbv zeta in T.
    unfold ends_recording_first. rewrite T. split.
    - eexists _, _. reflexivity.
    - intros pre queue n submission fence post E. simpl in E.
      destruct pre as [| c pre]; simpl in E.
      + discriminate.
      + injection E as <- _. left. reflexivity. }
  intros this b ws ss f w h. split; [apply G |].
  unfold finishOneSubmitCommands_fence. apply G.
Qed.

(** C5: take any host, and let [submitResult] be what it answers to the
    [vkQueueSubmit] call of this finish.  When end-of-recording succeeds,
    that submit call is made and gets that answer, and the run calls
    [vkQueueWaitIdle], on the closure's queue and right after the submit,
    if and only if [submitResult] is [VK_SUCCESS], waiting was requested
    and the fence is the null handle; in every other case (a failed
    submit, no waiting requested, or a fence supplied) no wait call is
    made.  When end-of-recording fails, the run stops before the submit
    and waits on nothing. *)
Theorem finish_waits_iff_success_wait_and_no_fence :
  forall (this : QueueClosure) (b : VkCommandBuffer)
         (ws ss : list VkSemaphore) (f : VkFence) (w : bool) (h : H),
    let t := run_trace d (finish this b ws ss f w) h in
    let endAns := d (vkEndCommandBuffer b) h in
    let submitCall :=
      vkQueueSubmit (mQueue this) 1
        (build_submission sSingleSubmitTemplate b ws ss) f in
    let submitAns := d submitCall (snd endAns) in
    let submitResult := fst submitAns in
    let waitCall := vkQueueWaitIdle (mQueue this) in
    (fst endAns = VK_SUCCESS ->
       (exists rest,
           t = Ev (vkEndCommandBuffer b) (fst endAns)
               :: Ev submitCall submitResult :: rest)
       /\ ((exists queue, In (vkQueueWaitIdle queue) (calls t)) <->
           submitResult = VK_SUCCESS /\ w = true /\ f = VK_NULL_HANDLE)
       /\ (submitResult = VK_SUCCESS -> w = true -> f = VK_NULL_HANDLE ->
           exists rest,
             t = Ev (vkEndCommandBuffer b) (fst endAns)
                 :: Ev submitCall submitResult
                 :: Ev waitCall (fst (d waitCall (snd submitAns))) :: rest)
       /\ (submitResult <> VK_SUCCESS \/ w = false \/ f <> VK_NULL_HANDLE ->
           forall queue, ~ In (vkQueueWaitIdle queue) (calls t)))
    /\ (fst endAns <> VK_SUCCESS ->
        t = [Ev (vkEndCommandBuffer b) (fst endAns)])
    /\ (forall queue, In (vkQueueWaitIdle queue) (calls t) ->
          queue = mQueue this).
Proof.
  intros this b ws ss f w h. cbv zeta.
  destruct (run_finish H d sSingleSubmitTemplate this b ws ss f w h)
    as [T _]. cbv zeta in T.
  destruct (calls_finish this b ws ss f w h)
    as (okE & submitResult & Ho & Hs & C & _ & _).
  rewrite C. rewrite T. clear C T. rewrite <- Hs, <- Ho.
  assert (W : forall queue,
            In (vkQueueWaitIdle queue)
              (vkEndCommandBuffer b
               :: (if okE
                   then
                     vkQueueSubmit (mQueue this) 1
                       (build_submission sSingleSubmitTemplate b ws ss) f
                     :: (if (submitResult =? VK_SUCCESS) && w
                            && (f =? VK_NULL_HANDLE)
                         then [vkQueueWaitIdle (mQueue this)] else [])
                     ++ (if negb (b =? VK_NULL_HANDLE) && _mCmdPoolInternal this
                         then [vkFreeCommandBuffers (device (_mDevicePair this))
                                 (_mCommandPool this) 1 b]
                         else [])
                     ++ (if negb (_mCommandPool this =? VK_NULL_HANDLE)
                         then [vkDestroyCommandPool (device (_mDevicePair this))
                                 (_mCommandPool this)]
                         else [])
                   else [])) <->
            okE = true
            /\ (submitResult =? VK_SUCCESS) && w && (f =? VK_NULL_HANDLE) = true
            /\ queue = mQueue this).
  { intros queue.
    destruct okE, ((submitResult =? VK_SUCCESS) && w && (f =? VK_NULL_HANDLE)),
      (negb (b =? VK_NULL_HANDLE) && _mCmdPoolInternal this),
      (negb (_mCommandPool this =? VK_NULL_HANDLE)); simpl;
      intuition (try discriminate; try congruence). }
  assert (Cond : (submitResult =? VK_SUCCESS) && w && (f =? VK_NULL_HANDLE)
                 = true <->
                 submitResult = VK_SUCCESS /\ w = true /\ f = VK_NULL_HANDLE).
  { rewrite !andb_true_iff, !Z.eqb_eq. tauto. }
  split; [| split].
  - intros HE. assert (Ok : okE = true) by (rewrite Ho; now apply Z.eqb_eq).
    rewrite Ok. split; [eexists; reflexivity |]. split; [| split].
    + split.
      * intros [queue Hq]. rewrite Ok in W. apply W in Hq. apply Cond. tauto.
      * intros Hc. apply Cond in Hc. exists (mQueue this).
        rewrite Ok in W. apply W. tauto.
    + intros H1 H2 H3.
      assert (Hc : (submitResult =? VK_SUCCESS) && w && (f =? VK_NULL_HANDLE)
                   = true) by (apply Cond; tauto).
      rewrite Hc. eexists. simpl. reflexivity.
    + intros Hn queue Hq. rewrite Ok in W. apply W in Hq.
      destruct Hq as (_ & Hc & _). apply Cond in Hc.
      destruct Hc as (H1 & H2 & H3).
      destruct Hn as [Hn | [Hn | Hn]]; [contradiction | congruence | contradiction].
  - intros HE. assert (Ok : okE = false) by (rewrite Ho; now apply Z.eqb_neq).
    rewrite Ok. reflexivity.
  - intros queue Hq. apply W in Hq. tauto.
Qed.

(** C4: a run of [finishOneSubmitCommands] never frees from nor destroys
    a pool other than the one stored in the closure, so a pool the caller
    passed to begin, which is not stored, is left alone.  When
    end-of-recording succeeds the call returns the submit result,
    whatever it is, with the pool member null and the internal flag
    false; and if the flag was set, with a non-null stored pool and a
    non-null command buffer, the last two calls made are the freeing of
    that buffer from the stored pool and the destruction of the pool. *)
Theorem finish_cleans_up_owned_pool_only :
  forall (this : QueueClosure) (b : VkCommandBuffer)
         (ws ss : list VkSemaphore) (f : VkFence) (w : bool) (h : H),
    let t := run_trace d (finish this b ws ss f w) h in
    let dev := device (_mDevicePair this) in
    (forall ext, ext <> _mCommandPool this ->
       forall dev' n cb,
         ~ In (vkFreeCommandBuffers dev' ext n cb) (calls t)
         /\ ~ In (vkDestroyCommandPool dev' ext) (calls t))
    /\ (fst (d (vkEndCommandBuffer b) h) = VK_SUCCESS ->
        exists this',
          run_result d (finish this b ws ss f w) h
          = Some (fst (d (vkQueueSubmit (mQueue this) 1
                            (build_submission sSingleSubmitTemplate b ws ss) f)
                         (snd (d (vkEndCommandBuffer b) h))),
                  this')
          /\ _mCmdPoolInternal this' = false
          /\ _mCommandPool this' = VK_NULL_HANDLE
          /\ (_mCmdPoolInternal this = true ->
              _mCommandPool this <> VK_NULL_HANDLE ->
              b <> VK_NULL_HANDLE ->
              exists pre,
                calls t = pre ++ [vkFreeCommandBuffers dev (_mCommandPool this) 1 b;
                                  vkDestroyCommandPool dev (_mCommandPool this)])).
Proof.
  intros this b ws ss f w h t dev. subst t dev.
  destruct (calls_finish this b ws ss f w h)
    as (okE & submitResult & Ho & Hs & C & _ & _).
  destruct (run_finish H d sSingleSubmitTemplate this b ws ss f w h)
    as [_ R]. cbv zeta in R.
  rewrite C. clear C. split.
  - intros ext Hext dev' n cb.
    destruct okE, ((submitResult =? VK_SUCCESS) && w && (f =? VK_NULL_HANDLE)),
      (negb (b =? VK_NULL_HANDLE) && _mCmdPoolInternal this),
      (negb (_mCommandPool this =? VK_NULL_HANDLE)); simpl;
      intuition (try discriminate; try congruence).
  - intros HE. rewrite HE in R, Ho. simpl in R, Ho. subst okE.
    eexists. split; [exact R |].
    split; [reflexivity |]. split.
    + destruct (negb (_mCommandPool this =? VK_NULL_HANDLE)) eqn:N;
        [reflexivity |].
      simpl. apply negb_false_iff in N. now apply Z.eqb_eq in N.
    + intros Hflag Hpool Hb.
      apply Z.eqb_neq in Hpool, Hb. rewrite Hflag, Hpool, Hb. simpl.
      destruct ((submitResult =? VK_SUCCESS) && w && (f =? VK_NULL_HANDLE)).
      * exists [vkEndCommandBuffer b;
               vkQueueSubmit (mQueue this) 1
                 (build_submission sSingleSubmitTemplate b ws ss) f;
               vkQueueWaitIdle (mQueue this)]. reflexivity.
      * exists [vkEndCommandBuffer b;
               vkQueueSubmit (mQueue this) 1
                 (build_submission sSingleSubmitTemplate b ws ss) f].
        reflexivity.
Qed.

End FinishClaims.

Section BeginClaims.
Import Closure.

Variable H : Type.
Variable d : driver H.

(** With no pool supplied, a run of [beginOneSubmitCommands] that returns
    has set the internal flag and stored the handle the host wrote; unless
    the file is compiled with [NDEBUG], the host created it with
    [VK_SUCCESS]. *)
Lemma begin_internal_owns_pool (NDEBUG : bool) (this : QueueClosure) (h : H) :
  forall b this',
    run_result d (beginOneSubmitCommands NDEBUG this VK_NULL_HANDLE) h
      = Some (b, this') ->
    _mCmdPoolInternal this' = true
    /\ exists info h1 r,
         d (vkCreateCommandPool (device (_mDevicePair this)) info) h
         = ((r, _mCommandPool this'), h1)
         /\ (NDEBUG = false -> r = VK_SUCCESS).
Proof.
  intros b this'.
  unfold run_result, beginOneSubmitCommands, ASSERT_VK_SUCCESS, assert, call.
  simpl.
  match goal with
  | |- context [d (vkCreateCommandPool ?a ?i) h] =>
      destruct (d (vkCreateCommandPool a i) h) as [[rC p] h1] eqn:EC
  end. simpl.
  assert (G : forall k : prog (VkCommandBuffer * QueueClosure),
            (NDEBUG = false -> rC = VK_SUCCESS) ->
            forall K : Prop,
              (snd (run d k h1) = Some (b, this') -> K) ->
              snd (run d k h1) = Some (b, this') -> K) by auto.
  destruct NDEBUG; simpl.
  - match goal with
    | |- context [d (vkAllocateCommandBuffers ?a ?i) h1] =>
        destruct (d (vkAllocateCommandBuffers a i) h1) as [[rA cb] h2]
    end. simpl.
    destruct (rA =? VK_SUCCESS); simpl; [| discriminate].
    match goal with
    | |- context [d (vkBeginCommandBuffer ?a ?i) h2] =>
        destruct (d (vkBeginCommandBuffer a i) h2) as [rB h3]
    end. simpl.
    destruct (rB =? VK_SUCCESS); simpl; [| discriminate].
    intros E. injection E as <- <-. simpl. split; [reflexivity |].
    eexists _, _, _. split; [exact EC | discriminate].
  - destruct (rC =? VK_SUCCESS) eqn:ES; simpl; [| discriminate].
    match goal with
    | |- context [d (vkAllocateCommandBuffers ?a ?i) h1] =>
        destruct (d (vkAllocateCommandBuffers a i) h1) as [[rA cb] h2]
    end. simpl.
    destruct (rA =? VK_SUCCESS); simpl; [| discriminate].
    match goal with
    | |- context [d (vkBeginCommandBuffer ?a ?i) h2] =>
        destruct (d (vkBeginCommandBuffer a i) h2) as [rB h3]
    end. simpl.
    destruct (rB =? VK_SUCCESS); simpl; [| discriminate].
    intros E. injection E as <- <-. simpl. split; [reflexivity |].
    apply Z.eqb_eq in ES. subst rC. eexists _, _, _.
    split; [exact EC | reflexivity].
Qed.

(** C10: called with a non-null pool [ext], [beginOneSubmitCommands]
    allocates from [ext] and starts recording, creates no pool, and when
    both calls succeed returns the command buffer together with the
    closure exactly as it was, pool member and internal flag included,
    whether or not the file is compiled with [NDEBUG].  A
    later [finishOneSubmitCommands] on that closure destroys no pool but
    the stored member, hence not [ext] when [ext] is not the stored
    member. *)
Theorem begin_external_pool_leaves_closure_unchanged :
  forall (NDEBUG : bool) (sSingleSubmitTemplate : VkSubmitInfo)
         (this : QueueClosure) (ext : VkCommandPool) (h : H),
    ext <> VK_NULL_HANDLE ->
    let allocCall :=
      vkAllocateCommandBuffers (device (_mDevicePair this))
        {| alloc_sType := VK_STRUCTURE_TYPE_COMMAND_BUFFER_ALLOCATE_INFO;
           alloc_commandBufferCount := 1;
           alloc_commandPool := ext;
           alloc_level := VK_COMMAND_BUFFER_LEVEL_PRIMARY |} in
    let allocAns := d allocCall h in
    let cmdBuffer := snd (fst allocAns) in
    let beginCall :=
      vkBeginCommandBuffer cmdBuffer
        {| begin_sType := VK_STRUCTURE_TYPE_COMMAND_BUFFER_BEGIN_INFO;
           begin_flags := VK_COMMAND_BUFFER_USAGE_ONE_TIME_SUBMIT_BIT |} in
    let beginAns := d beginCall (snd allocAns) in
    run_trace d (beginOneSubmitCommands NDEBUG this ext) h
      = Ev allocCall (fst allocAns)
        :: (if fst (fst allocAns) =? VK_SUCCESS
            then [Ev beginCall (fst beginAns)] else [])
    /\ run_result d (beginOneSubmitCommands NDEBUG this ext) h
       = (if (fst (fst allocAns) =? VK_SUCCESS) && (fst beginAns =? VK_SUCCESS)
          then Some (cmdBuffer, this) else None)
    /\ (forall b this',
          run_result d (beginOneSubmitCommands NDEBUG this ext) h = Some (b, this') ->
          _mCommandPool this' = _mCommandPool this
          /\ _mCmdPoolInternal this' = _mCmdPoolInternal this
          /\ this' = this)
    /\ (forall b ws ss f w h' dev p,
          In (vkDestroyCommandPool dev p)
            (calls (run_trace d
                      (finishOneSubmitCommands sSingleSubmitTemplate
                         this b ws ss f w) h')) ->
          p = _mCommandPool this)
    /\ (ext <> _mCommandPool this ->
        forall b ws ss f w h' dev,
          ~ In (vkDestroyCommandPool dev ext)
              (calls (run_trace d
                        (finishOneSubmitCommands sSingleSubmitTemplate
                           this b ws ss f w) h'))).
Proof.
  intros NDEBUG T this ext h Hext. cbv zeta.
  apply Z.eqb_neq in Hext.
  assert (R : run d (beginOneSubmitCommands NDEBUG this ext) h
              = run d
                  (Call (vkAllocateCommandBuffers (device (_mDevicePair this))
                     {| alloc_sType := VK_STRUCTURE_TYPE_COMMAND_BUFFER_ALLOCATE_INFO;
                        alloc_commandBufferCount := 1;
                        alloc_commandPool := ext;
                        alloc_level := VK_COMMAND_BUFFER_LEVEL_PRIMARY |})
                     (fun r =>
                        if fst r =? VK_SUCCESS
                        then Call (vkBeginCommandBuffer (snd r)
                               {| begin_sType := VK_STRUCTURE_TYPE_COMMAND_BUFFER_BEGIN_INFO;
                                  begin_flags := VK_COMMAND_BUFFER_USAGE_ONE_TIME_SUBMIT_BIT |})
                               (fun rB => if rB =? VK_SUCCESS
                                          then Ret (snd r, this) else Abort)
                        else Abort)) h).
  { unfold beginOneSubmitCommands, ASSERT_VK_SUCCESS, call.
    rewrite Hext. simpl.
    match goal with
    | |- context [d ?c h] => destruct (d c h) as [[rA cb] h1]
    end. simpl.
    destruct (rA =? VK_SUCCESS); simpl; [| reflexivity].
    match goal with
    | |- context [d ?c h1] => destruct (d c h1) as [rB h2]
    end. simpl.
    destruct (rB =? VK_SUCCESS); reflexivity. }
  unfold run_trace at 1, run_result. rewrite R. clear R. simpl.
  match goal with
  | |- context [d ?c h] => destruct (d c h) as [[rA cb] h1]
  end. simpl.
  assert (F : forall b ws ss f w h' dev p,
            In (vkDestroyCommandPool dev p)
              (calls (run_trace d
                        (finishOneSubmitCommands T this b ws ss f w) h')) ->
            p = _mCommandPool this).
  { intros b ws ss f w h' dev p Hin.
    exact (proj1 (finish_touches_stored_pool_only H d T this b ws ss f w h'
                    dev p) Hin). }
  destruct (rA =? VK_SUCCESS); simpl.
  - match goal with
    | |- context [d ?c h1] => destruct (d c h1) as [rB h2]
    end. simpl.
    destruct (rB =? VK_SUCCESS); simpl.
    + split; [reflexivity |]. split; [reflexivity |]. split.
      * intros b this' E. injection E as <- <-. repeat split.
      * split; [exact F |]. intros Hne b ws ss f w h' dev Hin.
        apply Hne. exact (F _ _ _ _ _ _ _ _ Hin).
    + split; [reflexivity |]. split; [reflexivity |]. split.
      * intros b this' E. discriminate.
      * split; [exact F |]. intros Hne b ws ss f w h' dev Hin.
        apply Hne. exact (F _ _ _ _ _ _ _ _ Hin).
  - split; [reflexivity |]. split; [reflexivity |]. split.
    + intros b this' E. discriminate.
    + split; [exact F |]. intros Hne b ws ss f w h' dev Hin.
      apply Hne. exact (F _ _ _ _ _ _ _ _ Hin).
Qed.

End BeginClaims.

Section ClosureWitnesses.
Import Closure Examples.

(** C4 on a concrete run: the host rejects the submission with code 3,
    and the closure that owns pool 100 still frees buffer 101 from it and
    destroys it. *)
Lemma finish_cleans_up_owned_pool_only_witness :
  exists this',
    run_result (scripted_driver 3)
      (finishOneSubmitCommands empty_template owning_closure 101 [] [] 0 true)
      102
    = Some (3, this')
    /\ _mCmdPoolInternal this' = false
    /\ _mCommandPool this' = VK_NULL_HANDLE
    /\ exists pre,
         calls (run_trace (scripted_driver 3)
                  (finishOneSubmitCommands empty_template owning_closure
                     101 [] [] 0 true) 102)
         = pre ++ [vkFreeCommandBuffers 5 100 1 101; vkDestroyCommandPool 5 100].
Proof.
  destruct (proj2 (finish_cleans_up_owned_pool_only Z (scripted_driver 3)
                     empty_template owning_closure 101 [] [] 0 true 102)
              eq_refl)
    as (this' & R & F & P & K).
  exists this'. split; [exact R |]. split; [exact F |]. split; [exact P |].
  apply K; [reflexivity | discriminate | discriminate].
Defined.

(** C5 on concrete runs: with a successful submit, waiting requested and
    no fence, the third call is the wait on queue 7; with fence 9 supplied
    no wait is made. *)
Lemma finish_waits_iff_success_wait_and_no_fence_witness :
  (exists rest,
      run_trace (scripted_driver 0)
        (finishOneSubmitCommands empty_template owning_closure 101 [] [] 0 true)
        102
      = Ev (vkEndCommandBuffer 101) VK_SUCCESS
        :: Ev (vkQueueSubmit 7 1 (build_submission empty_template 101 [] [])
                 0) VK_SUCCESS
        :: Ev (vkQueueWaitIdle 7) VK_SUCCESS :: rest)
  /\ (forall queue,
        ~ In (vkQueueWaitIdle queue)
            (calls (run_trace (scripted_driver 0)
                      (finishOneSubmitCommands empty_template owning_closure
                         101 [] [] 9 true) 102))).
Proof.
  split.
  - destruct (proj1 (finish_waits_iff_success_wait_and_no_fence Z
                       (scripted_driver 0) empty_template owning_closure
                       101 [] [] 0 true 102) eq_refl)
      as (_ & _ & Hwait & _).
    exact (Hwait eq_refl eq_refl eq_refl).
  - destruct (proj1 (finish_waits_iff_success_wait_and_no_fence Z
                       (scripted_driver 0) empty_template owning_closure
                       101 [] [] 9 true 102) eq_refl)
      as (_ & _ & _ & Hno).
    apply Hno. right. right. discriminate.
Defined.

(** C10 on a concrete run: an idle closure handed pool 50 comes back
    unchanged, and finishing on it does not destroy pool 50. *)
Lemma begin_external_pool_leaves_closure_unchanged_witness :
  run_result (scripted_driver 0) (beginOneSubmitCommands false idle_closure 50)
    100
    = Some (100, idle_closure)
  /\ ~ In (vkDestroyCommandPool 5 50)
         (calls (run_trace (scripted_driver 0)
                   (finishOneSubmitCommands empty_template idle_closure
                      100 [] [] 0 true) 101)).
Proof.
  assert (N : 50 <> VK_NULL_HANDLE) by discriminate.
  destruct (begin_external_pool_leaves_closure_unchanged Z (scripted_driver 0)
              false empty_template idle_closure 50 100 N)
    as (_ & R & _ & _ & K).
  split; [exact R |]. apply K. discriminate.
Defined.

End ClosureWitnesses.

(** * Descriptor counts *)

Section DescriptorFacts.
Import Descriptor.

Lemma total_fold (l : list VkDescriptorPoolSize) :
  forall acc : Z,
    fold_left (fun sum size => to_uint32 (sum + descriptorCount size)) l
      (to_uint32 acc)
    = to_uint32 (acc + count_sum l).
Proof.
  induction l as [| x l IH]; intros acc; simpl.
  - now rewrite Z.add_0_r.
  - assert (E : to_uint32 (to_uint32 acc + descriptorCount x)
               = to_uint32 (acc + descriptorCount x)).
    { unfold to_uint32. apply Z.add_mod_idemp_l. cbv; discriminate. }
    rewrite E, IH. f_equal. lia.
Qed.

Lemma total_is_sum_mod (l : list VkDescriptorPoolSize) :
  total_descriptor_count l = to_uint32 (count_sum l).
Proof.
  unfold total_descriptor_count.
  change 0 with (to_uint32 0) at 1. now rewrite total_fold.
Qed.

Lemma count_sum_app (xs ys : list VkDescriptorPoolSize) :
  count_sum (xs ++ ys) = count_sum xs + count_sum ys.
Proof. induction xs as [| x xs IH]; simpl; [reflexivity | rewrite IH; lia]. Qed.

(** The total is the sum of the descriptor counts reduced modulo 2^32: it
    always lies in the [uint32_t] range, and it is the exact sum whenever
    that sum does. *)
Theorem total_descriptor_count_wraps :
  forall l : list VkDescriptorPoolSize,
    total_descriptor_count l = count_sum l mod UINT32_MOD
    /\ 0 <= total_descriptor_count l < UINT32_MOD
    /\ (0 <= count_sum l < UINT32_MOD -> total_descriptor_count l = count_sum l).
Proof.
  intros l. rewrite total_is_sum_mod. unfold to_uint32.
  split; [reflexivity |]. split.
  - apply Z.mod_pos_bound. reflexivity.
  - intros Hfit. now apply Z.mod_small.
Qed.

Lemma total_descriptor_count_wraps_witness :
  total_descriptor_count [pool_size 0 7; pool_size 6 5; pool_size 1 30] = 42
  /\ total_descriptor_count [pool_size 0 3; pool_size 1 (UINT32_MOD - 1)] = 2.
Proof.
  split.
  - apply (proj2 (proj2 (total_descriptor_count_wraps
                           [pool_size 0 7; pool_size 6 5; pool_size 1 30]))).
    vm_compute. split; [discriminate | reflexivity].
  - rewrite (proj1 (total_descriptor_count_wraps
                      [pool_size 0 3; pool_size 1 (UINT32_MOD - 1)])).
    reflexivity.
Defined.

(** The total of two lists put together is the 32-bit sum of their
    totals. *)
Theorem total_descriptor_count_app :
  forall xs ys : list VkDescriptorPoolSize,
    total_descriptor_count (xs ++ ys)
    = to_uint32 (total_descriptor_count xs + total_descriptor_count ys).
Proof.
  intros xs ys. rewrite !total_is_sum_mod, count_sum_app. unfold to_uint32.
  now rewrite Z.add_mod by (cbv; discriminate).
Qed.

(** The order of the pool sizes does not matter, wrapped or not. *)
Theorem total_descriptor_count_permutation :
  forall xs ys : list VkDescriptorPoolSize,
    Permutation xs ys ->
    total_descriptor_count xs = total_descriptor_count ys.
Proof.
  intros xs ys P. rewrite !total_is_sum_mod. f_equal.
  induction P; simpl; lia.
Qed.

Lemma total_descriptor_count_permutation_witness :
  total_descriptor_count [pool_size 0 (UINT32_MOD - 1); pool_size 1 3]
  = total_descriptor_count [pool_size 1 3; pool_size 0 (UINT32_MOD - 1)].
Proof.
  apply total_descriptor_count_permutation. apply perm_swap.
Defined.

End DescriptorFacts.

(** * Depth format selection *)

Section DepthFormatFacts.
Import DepthFormat String.

Variable query : VkPhysicalDevice -> VkFormat -> VkFormatProperties.
Variable dev : VkPhysicalDevice.

Local Abbreviation test := (passes query dev).

Lemma test_iff_acceptable (req : bool) (format : VkFormat) :
  test req format = true <-> acceptable query dev req format.
Proof.
  unfold acceptable, usable, passes.
  rewrite andb_true_iff, negb_true_iff, Z.eqb_neq, orb_true_iff, negb_true_iff.
  rewrite Z.geb_le. destruct req; intuition congruence.
Qed.

(** The loop returns the first acceptable format of the list it is given,
    and throws when there is none. *)
Lemma loop_spec (req : bool) (l : list VkFormat) :
  (exists pre r post,
      l = pre ++ r :: post
      /\ select_depth_format_loop query dev req l = Returned r
      /\ acceptable query dev req r
      /\ forall c, In c pre -> ~ acceptable query dev req c)
  \/ (select_depth_format_loop query dev req l
        = Threw "Failed to find compatible depth format!"%string
      /\ forall c, In c l -> ~ acceptable query dev req c).
Proof.
  induction l as [| c l IH]; simpl.
  - right. split; [reflexivity | intros c []].
  - fold (test req c). destruct (test req c) eqn:E.
    + left. exists [], c, l. split; [reflexivity |]. split; [reflexivity |].
      split; [now apply test_iff_acceptable | intros x []].
    + assert (N : ~ acceptable query dev req c).
      { intros A. apply test_iff_acceptable in A. congruence. }
      destruct IH as [(pre & r & post & -> & R & A & P) | [T P]].
      * left. exists (c :: pre), r, post. split; [reflexivity |].
        split; [exact R |]. split; [exact A |].
        intros x [<- | Hx]; [exact N | now apply P].
      * right. split; [exact T |]. intros x [<- | Hx]; [exact N | now apply P].
Qed.

(** A returned format is always acceptable: the host offers it as a
    depth/stencil attachment, it is numerically at least
    [VK_FORMAT_D16_UNORM_S8_UINT] when a stencil is required, and it is
    the preferred format or one of the five candidates. *)
Theorem select_depth_format_sound :
  forall (req : bool) (aPreferred r : VkFormat),
    select_depth_format query dev req aPreferred = Returned r ->
    acceptable query dev req r
    /\ (r = aPreferred \/ In r candidates).
Proof.
  intros req p r. unfold select_depth_format. cbv zeta. fold (test req p).
  destruct (test req p) eqn:E.
  - intros R. injection R as <-. split; [now apply test_iff_acceptable | now left].
  - destruct (loop_spec req candidates)
      as [(pre & r' & post & L & R & A & _) | [T _]]; rewrite ?R, ?T; intros X.
    + injection X as <-. split; [exact A |]. right. rewrite L.
      apply in_or_app. right. now left.
    + discriminate.
Qed.

(** The function throws exactly when neither the preferred format nor any
    of the five candidates is acceptable. *)
Theorem select_depth_format_throws_iff :
  forall (req : bool) (aPreferred : VkFormat),
    (exists what, select_depth_format query dev req aPreferred = Threw what)
    <-> (~ acceptable query dev req aPreferred
         /\ forall c, In c candidates -> ~ acceptable query dev req c).
Proof.
  intros req p. unfold select_depth_format. cbv zeta. fold (test req p).
  destruct (test req p) eqn:E.
  - split.
    + intros [what X]. discriminate.
    + intros [N _]. exfalso. apply N. now apply test_iff_acceptable.
  - assert (N : ~ acceptable query dev req p).
    { intros A. apply test_iff_acceptable in A. congruence. }
    destruct (loop_spec req candidates)
      as [(pre & r' & post & L & R & A & _) | [T P]]; rewrite ?R, ?T.
    + split.
      * intros [what X]. discriminate.
      * intros [_ P]. exfalso. apply (P r'); [| exact A].
        rewrite L. apply in_or_app. right. now left.
    + split; [intros _; split; assumption | intros _; eexists; reflexivity].
Qed.

(** Priority: an acceptable preferred format is returned as it is;
    otherwise the result is the first acceptable candidate in the order
    D32_SFLOAT_S8_UINT, D24_UNORM_S8_UINT, D16_UNORM_S8_UINT, D32_SFLOAT,
    D16_UNORM. *)
Theorem select_depth_format_priority :
  forall (req : bool) (aPreferred : VkFormat),
    (acceptable query dev req aPreferred ->
       select_depth_format query dev req aPreferred = Returned aPreferred)
    /\ (~ acceptable query dev req aPreferred ->
        forall r, select_depth_format query dev req aPreferred = Returned r ->
        exists pre post,
          candidates = pre ++ r :: post
          /\ forall c, In c pre -> ~ acceptable query dev req c).
Proof.
  intros req p. unfold select_depth_format. cbv zeta. fold (test req p). split.
  - intros A. apply test_iff_acceptable in A. now rewrite A.
  - intros N r. destruct (test req p) eqn:E.
    + exfalso. apply N. now apply test_iff_acceptable.
    + destruct (loop_spec req candidates)
        as [(pre & r' & post & L & R & _ & P) | [T _]]; rewrite ?R, ?T; intros X.
      * injection X as <-. now exists pre, post.
      * discriminate.
Qed.

Lemma acceptable_without_stencil (format : VkFormat) :
  acceptable query dev true format -> acceptable query dev false format.
Proof. intros [U _]. split; [exact U | discriminate]. Qed.

(** Requiring a stencil only narrows the choice: a format returned under
    that requirement is numerically at least [VK_FORMAT_D16_UNORM_S8_UINT],
    and the same call without the requirement returns a format too. *)
Theorem select_depth_format_stencil_narrows :
  forall (aPreferred r : VkFormat),
    select_depth_format query dev true aPreferred = Returned r ->
    VK_FORMAT_D16_UNORM_S8_UINT <= r
    /\ exists r', select_depth_format query dev false aPreferred = Returned r'.
Proof.
  intros p r. unfold select_depth_format. cbv zeta.
  fold (test true p). fold (test false p).
  intros R.
  assert (A : acceptable query dev true r /\ (r = p \/ In r candidates)).
  { destruct (test true p) eqn:E.
    - injection R as <-. split; [now apply test_iff_acceptable | now left].
    - destruct (loop_spec true candidates)
        as [(pre & r' & post & L & R' & A & _) | [T _]].
      + rewrite R' in R. injection R as <-. split; [exact A |]. right.
        rewrite L. apply in_or_app. right. now left.
      + rewrite T in R. discriminate. }
  destruct A as [A Hin]. split; [now apply (proj2 A) |].
  apply acceptable_without_stencil in A.
  destruct (test false p) eqn:E; [now exists p |].
  destruct Hin as [-> | Hin].
  - apply test_iff_acceptable in A. congruence.
  - destruct (loop_spec false candidates)
      as [(pre & r' & post & _ & R' & _ & _) | [_ P]].
    + now exists r'.
    + exfalso. exact (P r Hin A).
Qed.

End DepthFormatFacts.

Section DepthFormatWitnesses.
Import DepthFormat.

(** On a host that offers D32_SFLOAT and D24_UNORM_S8_UINT, asking for
    D32_SFLOAT with a stencil yields D24_UNORM_S8_UINT. *)
Lemma select_depth_format_sound_witness :
  acceptable (host_with [VK_FORMAT_D32_SFLOAT; VK_FORMAT_D24_UNORM_S8_UINT])
    0 true VK_FORMAT_D24_UNORM_S8_UINT
  /\ (VK_FORMAT_D24_UNORM_S8_UINT = VK_FORMAT_D32_SFLOAT
      \/ In VK_FORMAT_D24_UNORM_S8_UINT candidates).
Proof.
  apply (select_depth_format_sound
           (host_with [VK_FORMAT_D32_SFLOAT; VK_FORMAT_D24_UNORM_S8_UINT])
           0 true VK_FORMAT_D32_SFLOAT VK_FORMAT_D24_UNORM_S8_UINT).
  reflexivity.
Defined.

Lemma select_depth_format_priority_witness :
  select_depth_format
    (host_with [VK_FORMAT_D32_SFLOAT; VK_FORMAT_D24_UNORM_S8_UINT])
    0 false VK_FORMAT_D32_SFLOAT
  = Returned VK_FORMAT_D32_SFLOAT
  /\ exists pre post,
       candidates = pre ++ VK_FORMAT_D24_UNORM_S8_UINT :: post
       /\ forall c, In c pre ->
            ~ acceptable
                (host_with [VK_FORMAT_D32_SFLOAT; VK_FORMAT_D24_UNORM_S8_UINT])
                0 true c.
Proof.
  split.
  - apply (proj1 (select_depth_format_priority
                    (host_with [VK_FORMAT_D32_SFLOAT; VK_FORMAT_D24_UNORM_S8_UINT])
                    0 false VK_FORMAT_D32_SFLOAT)).
    split; [vm_compute; discriminate | discriminate].
  - apply (proj2 (select_depth_format_priority
                    (host_with [VK_FORMAT_D32_SFLOAT; VK_FORMAT_D24_UNORM_S8_UINT])
                    0 true VK_FORMAT_D32_SFLOAT)).
    + intros [_ S]. specialize (S eq_refl). vm_compute in S. now apply S.
    + reflexivity.
Defined.

Lemma select_depth_format_stencil_narrows_witness :
  VK_FORMAT_D16_UNORM_S8_UINT <= VK_FORMAT_D24_UNORM_S8_UINT
  /\ exists r',
       select_depth_format
         (host_with [VK_FORMAT_D32_SFLOAT; VK_FORMAT_D24_UNORM_S8_UINT])
         0 false VK_FORMAT_D32_SFLOAT
       = Returned r'.
Proof.
  apply (select_depth_format_stencil_narrows
           (host_with [VK_FORMAT_D32_SFLOAT; VK_FORMAT_D24_UNORM_S8_UINT])
           0 VK_FORMAT_D32_SFLOAT VK_FORMAT_D24_UNORM_S8_UINT).
  reflexivity.
Defined.

End DepthFormatWitnesses.

(** * Result codes as text *)

Section ResultStrFacts.
Import ResultStr String.

(** Two different listed result codes never share a text, so the text
    identifies the code. *)
Theorem vk_result_str_injective_on_listed :
  forall a b : VkResult,
    listed a -> listed b ->
    vk_result_str a = vk_result_str b -> a = b.
Proof.
  intros a b La Lb.
  destruct a; try contradiction; destruct b; try contradiction;
    simpl; intros E; try reflexivity; discriminate E.
Qed.

Lemma vk_result_str_injective_witness :
  VK_ERROR_DEVICE_LOST = VK_ERROR_DEVICE_LOST.
Proof.
  apply vk_result_str_injective_on_listed; [exact I | exact I | reflexivity].
Defined.

(** The text for invalid values is returned for the values the switch
    does not list, and for no listed code. *)
Theorem vk_result_str_invalid_iff_unlisted :
  forall r : VkResult,
    vk_result_str r = "<!Invalid VkResult value!>"%string <-> ~ listed r.
Proof.
  intros r. destruct r; simpl; split; intros X;
    try discriminate X; try reflexivity; try (exfalso; apply X; exact I).
  intros [].
Qed.

End ResultStrFacts.

(** * Operations over all device features *)

Section FeaturesFacts.
Import Features String.

Lemma Field_beq_eq (x y : Field) : Field_beq x y = true <-> x = y.
Proof.
  split; [apply internal_Field_dec_bl | apply internal_Field_dec_lb].
Qed.

Lemma set_field_same (s : VkPhysicalDeviceFeatures) (x : Field) (v : VkBool32) :
  set_field s x v x = v.
Proof.
  unfold set_field. now rewrite (proj2 (Field_beq_eq x x) eq_refl).
Qed.

Lemma set_field_other (s : VkPhysicalDeviceFeatures) (x y : Field) (v : VkBool32) :
  y <> x -> set_field s x v y = s y.
Proof.
  intros N. unfold set_field. destruct (Field_beq y x) eqn:E; [| reflexivity].
  apply Field_beq_eq in E. contradiction.
Qed.

Lemma all_fields_complete (x : Field) : In x all_fields.
Proof. destruct x; simpl; tauto. Qed.

Lemma all_fields_nodup : NoDup all_fields.
Proof.
  unfold all_fields.
  repeat (apply NoDup_cons; [simpl; intuition discriminate |]).
  apply NoDup_nil.
Qed.

Section Blocks.

Variable S : Type.
Variables a b aFeaturesOut : ref.
Variable f : binary_func S.

(** The generic routine depends on its inputs only at the members it
    visits. *)
Lemma schema_binary_ext (fields : list Field) :
  forall (a0 a1 b0 b1 o0 o1 : VkPhysicalDeviceFeatures) (s : S),
    (forall x, In x fields -> a0 x = a1 x /\ b0 x = b1 x) ->
    (forall y, o0 y = o1 y) ->
    snd (schema_binary fields f a0 b0 o0 s) = snd (schema_binary fields f a1 b1 o1 s)
    /\ forall y, fst (schema_binary fields f a0 b0 o0 s) y
                 = fst (schema_binary fields f a1 b1 o1 s) y.
Proof.
  induction fields as [| x rest IH]; intros a0 a1 b0 b1 o0 o1 s Hin Ho; simpl.
  - split; [reflexivity | exact Ho].
  - destruct (Hin x (or_introl eq_refl)) as [<- <-].
    destruct (f s (a0 x) (b0 x) (field_name x)) as [v s'].
    apply IH.
    + intros y Hy. apply Hin. now right.
    + intros y. unfold set_field. destruct (Field_beq y x); [reflexivity | apply Ho].
Qed.

(** A block of diagonal lines, one per listed member, is the generic
    routine on the objects as they were on entry, whatever references
    coincide. *)
Lemma exec_diagonal_block (fields : list Field) :
  NoDup fields ->
  forall (st : store) (s : S),
    let final :=
      exec_block S
        (map (fun x => assign_binary S a b aFeaturesOut f x x x (field_name x))
           fields)
        (st, s) in
    let generic :=
      schema_binary fields f (st a) (st b) (st aFeaturesOut) s in
    snd final = snd generic
    /\ (forall y, fst final aFeaturesOut y = fst generic y)
    /\ (forall r, r <> aFeaturesOut -> forall y, fst final r y = st r y).
Proof.
  induction 1 as [| x rest Hx ND IH]; intros st s; cbv zeta.
  - simpl. repeat split; reflexivity.
  - unfold exec_block in *. simpl.
    destruct (f s (st a x) (st b x) (field_name x)) as [v s'] eqn:E.
    specialize (IH (write st aFeaturesOut x v) s'). cbv zeta in IH.
    destruct IH as (I1 & I2 & I3).
    assert (W : forall r y, In y rest ->
                  write st aFeaturesOut x v r y = st r y).
    { intros r y Hy. unfold write. destruct (Nat.eqb r aFeaturesOut);
        [| reflexivity].
      apply set_field_other. intros ->. contradiction. }
    assert (O : forall y, write st aFeaturesOut x v aFeaturesOut y
                          = set_field (st aFeaturesOut) x v y).
    { intros y. unfold write. now rewrite Nat.eqb_refl. }
    destruct (schema_binary_ext rest
                (write st aFeaturesOut x v a) (st a)
                (write st aFeaturesOut x v b) (st b)
                (write st aFeaturesOut x v aFeaturesOut)
                (set_field (st aFeaturesOut) x v) s')
      as [X1 X2].
    { intros y Hy. split; apply W; exact Hy. }
    { exact O. }
    split; [now rewrite I1 |]. split.
    + intros y. now rewrite I2.
    + intros r Hr y. rewrite (I3 r Hr). unfold write.
      apply Nat.eqb_neq in Hr. now rewrite Hr.
Qed.

End Blocks.

Lemma boolean_op_is_block (S : Type) (a b aFeaturesOut : ref)
    (f : binary_func S) :
  boolean_op_phys_device_features S a b aFeaturesOut f
  = exec_block S
      (map (fun x => assign_binary S a b aFeaturesOut f x x x (field_name x))
         all_fields).
Proof. reflexivity. Qed.

Lemma unary_op_is_binary (S : Type) (aFeaturesIn aFeaturesOut : ref)
    (f : unary_func S) :
  unary_op_phys_device_features S aFeaturesIn aFeaturesOut f
  = boolean_op_phys_device_features S aFeaturesIn aFeaturesIn aFeaturesOut
      (ignore_second f).
Proof. reflexivity. Qed.

Lemma schema_pure (g : VkBool32 -> VkBool32 -> string -> VkBool32)
    (a0 b0 : VkPhysicalDeviceFeatures) (fields : list Field) :
  forall (o : VkPhysicalDeviceFeatures) (y : Field),
    fst (schema_binary fields (pure_binary g) a0 b0 o tt) y
    = if existsb (Field_beq y) fields
      then g (a0 y) (b0 y) (field_name y) else o y.
Proof.
  induction fields as [| x rest IH]; intros o y; simpl; [reflexivity |].
  rewrite IH. destruct (existsb (Field_beq y) rest).
  - now rewrite orb_true_r.
  - rewrite orb_false_r. unfold set_field.
    destruct (Field_beq y x) eqn:E; [| reflexivity].
    apply Field_beq_eq in E. now subst y.
Qed.

Lemma schema_log (g : VkBool32 -> VkBool32 -> string -> VkBool32)
    (a0 b0 : VkPhysicalDeviceFeatures) (fields : list Field) :
  forall (o : VkPhysicalDeviceFeatures) log,
    snd (schema_binary fields (logging_binary g) a0 b0 o log)
    = log ++ map (fun x => (a0 x, b0 x, field_name x)) fields.
Proof.
  induction fields as [| x rest IH]; intros o log; simpl.
  - now rewrite app_nil_r.
  - rewrite IH, <- app_assoc. reflexivity.
Qed.

Lemma existsb_all_fields (y : Field) : existsb (Field_beq y) all_fields = true.
Proof.
  apply existsb_exists. exists y. split; [apply all_fields_complete |].
  now apply Field_beq_eq.
Qed.

Lemma field_names_nodup : NoDup (map field_name all_fields).
Proof.
  unfold all_fields. simpl.
  repeat (apply NoDup_cons; [simpl; intuition discriminate |]).
  apply NoDup_nil.
Qed.

(** For any callback, with or without state of its own, and whichever of
    the three references coincide, [boolean_op_phys_device_features]
    leaves in the output object and in the callback's state exactly what
    the generic routine over the list of members computes from the two
    inputs as they were on entry; every other object is untouched. *)
Theorem boolean_op_is_generic_routine :
  forall (S : Type) (a b aFeaturesOut : ref) (f : binary_func S)
         (st : store) (s : S),
    let final := boolean_op_phys_device_features S a b aFeaturesOut f (st, s) in
    let generic :=
      schema_binary all_fields f (st a) (st b) (st aFeaturesOut) s in
    snd final = snd generic
    /\ (forall x, fst final aFeaturesOut x = fst generic x)
    /\ (forall r, r <> aFeaturesOut -> forall x, fst final r x = st r x).
Proof.
  intros S a b o f st s. rewrite boolean_op_is_block.
  apply (exec_diagonal_block S a b o f all_fields all_fields_nodup st s).
Qed.

(** With a callback that has no state, every member [x] of the output is
    the callback applied to [a.x], [b.x] and the identifier of [x], the
    inputs being read as they were on entry even when the output is one
    of them; objects other than the output keep their contents. *)
Theorem boolean_op_fieldwise :
  forall (a b aFeaturesOut : ref)
         (g : VkBool32 -> VkBool32 -> string -> VkBool32) (st : store),
    let st' :=
      fst (boolean_op_phys_device_features unit a b aFeaturesOut
             (pure_binary g) (st, tt)) in
    (forall x, st' aFeaturesOut x = g (st a x) (st b x) (field_name x))
    /\ (forall r, r <> aFeaturesOut -> forall x, st' r x = st r x).
Proof.
  intros a b o g st. cbv zeta. rewrite boolean_op_is_block.
  destruct (exec_diagonal_block unit a b o (pure_binary g) all_fields
              all_fields_nodup st tt) as (_ & F & R).
  split; [| exact R].
  intros x. rewrite F, schema_pure, existsb_all_fields. reflexivity.
Qed.

(** The binary callback is called exactly once per member, in the order
    of the lines, each time with that member's values in [a] and [b] as
    they were on entry and with that member's identifier; the 55
    identifiers are pairwise different. *)
Theorem boolean_op_calls_each_member_once :
  forall (a b aFeaturesOut : ref)
         (g : VkBool32 -> VkBool32 -> string -> VkBool32) (st : store),
    snd (boolean_op_phys_device_features _ a b aFeaturesOut
           (logging_binary g) (st, []))
    = map (fun x => (st a x, st b x, field_name x)) all_fields
    /\ NoDup (map field_name all_fields)
    /\ List.length all_fields = 55%nat.
Proof.
  intros a b o g st. rewrite boolean_op_is_block.
  destruct (exec_diagonal_block _ a b o (logging_binary g) all_fields
              all_fields_nodup st []) as (L & _ & _).
  split; [| split; [exact field_names_nodup | reflexivity]].
  rewrite L, schema_log. reflexivity.
Qed.

(** With a callback that has no state, every member [x] of the output of
    [unary_op_phys_device_features] is the callback applied to the
    input's [x] as it was on entry and to the identifier of [x], also
    when input and output are the same object; other objects keep their
    contents. *)
Theorem unary_op_fieldwise :
  forall (aFeaturesIn aFeaturesOut : ref)
         (g : VkBool32 -> string -> VkBool32) (st : store),
    let st' :=
      fst (unary_op_phys_device_features unit aFeaturesIn aFeaturesOut
             (pure_unary g) (st, tt)) in
    (forall x, st' aFeaturesOut x = g (st aFeaturesIn x) (field_name x))
    /\ (forall r, r <> aFeaturesOut -> forall x, st' r x = st r x).
Proof.
  intros i o g st. cbv zeta. rewrite unary_op_is_binary, boolean_op_is_block.
  destruct (exec_diagonal_block unit i i o (ignore_second (pure_unary g))
              all_fields all_fields_nodup st tt) as (_ & F & R).
  split; [| exact R].
  intros x. rewrite F.
  change (ignore_second (pure_unary g))
    with (pure_binary (fun v _ name => g v name)).
  rewrite schema_pure, existsb_all_fields. reflexivity.
Qed.

(** The unary callback is called exactly once per member, in the order of
    the lines, with the input's value of that member as it was on entry
    and with that member's identifier. *)
Theorem unary_op_calls_each_member_once :
  forall (aFeaturesIn aFeaturesOut : ref)
         (g : VkBool32 -> string -> VkBool32) (st : store),
    snd (unary_op_phys_device_features _ aFeaturesIn aFeaturesOut
           (logging_unary g) (st, []))
    = map (fun x => (st aFeaturesIn x, field_name x)) all_fields.
Proof.
  intros i o g st. rewrite unary_op_is_binary, boolean_op_is_block.
  destruct (exec_diagonal_block _ i i o (ignore_second (logging_unary g))
              all_fields all_fields_nodup st []) as (L & _ & _).
  rewrite L. clear L.
  assert (G : forall fields (out : VkPhysicalDeviceFeatures) log,
            snd (schema_binary fields (ignore_second (logging_unary g))
                   (st i) (st i) out log)
            = log ++ map (fun x => (st i x, field_name x)) fields).
  { induction fields as [| x rest IH]; intros out log; simpl.
    - now rewrite app_nil_r.
    - unfold ignore_second at 1, logging_unary at 1.
      rewrite IH, <- app_assoc. reflexivity. }
  rewrite G. reflexivity.
Qed.

End FeaturesFacts.

(** * More on the specialization-table merge *)

Section MergeMore.
Import Specialization Blob.

Lemma slice_app_left (xs ys : list Byte.byte) (off sz : Z) :
  0 <= off -> 0 <= sz -> off + sz <= Z.of_nat (length xs) ->
  slice (xs ++ ys) off sz = slice xs off sz.
Proof.
  intros Ho Hs Hb. unfold slice.
  rewrite skipn_app.
  replace (Z.to_nat off - length xs)%nat with 0%nat by lia. simpl.
  rewrite firstn_app.
  replace (Z.to_nat sz - length (skipn (Z.to_nat off) xs))%nat with 0%nat
    by (rewrite length_skipn; lia).
  simpl. now rewrite app_nil_r.
Qed.

Lemma slice_app_right (xs ys : list Byte.byte) (off sz : Z) :
  0 <= off ->
  slice (xs ++ ys) (off + Z.of_nat (length xs)) sz = slice ys off sz.
Proof.
  intros Ho. unfold slice. rewrite skipn_app.
  replace (Z.to_nat (off + Z.of_nat (length xs)) - length xs)%nat
    with (Z.to_nat off) by lia.
  rewrite skipn_all2 by lia. reflexivity.
Qed.

Lemma to_uint32_add_l (x y : Z) : to_uint32 (to_uint32 x + y) = to_uint32 (x + y).
Proof. unfold to_uint32. apply Z.add_mod_idemp_l. cbv; discriminate. Qed.

Lemma to_uint32_add_r (x y : Z) : to_uint32 (x + to_uint32 y) = to_uint32 (x + y).
Proof. unfold to_uint32. apply Z.add_mod_idemp_r. cbv; discriminate. Qed.

Lemma addOffset_addOffset (x y : Z) (e : VkSpecializationMapEntry) :
  addOffset (to_uint32 x) (addOffset (to_uint32 y) e)
  = addOffset (to_uint32 (x + y)) e.
Proof.
  unfold addOffset. simpl. f_equal.
  rewrite !to_uint32_add_r, to_uint32_add_l. f_equal. lia.
Qed.

Lemma addOffset_in_range (x : Z) (e : VkSpecializationMapEntry) :
  entry_in_range e -> entry_in_range (addOffset x e).
Proof.
  intros (Hc & _ & Hs). unfold entry_in_range, addOffset. simpl.
  repeat split; try lia; apply Z.mod_pos_bound; reflexivity.
Qed.

(** The descriptor a merge hands back is well formed again. *)
Lemma merged_well_formed (a b : VkSpecializationInfo) :
  well_formed a -> well_formed b ->
  mapEntryCount a + mapEntryCount b < UINT32_MOD ->
  dataSize a + dataSize b < SIZE_MOD ->
  well_formed (snd (merged a b)).
Proof.
  intros (Ca & _ & Da & _ & Ra) (Cb & _ & Db & _ & Rb) Hc Hd.
  unfold merged, well_formed. simpl.
  rewrite !length_app, length_map.
  split; [lia |]. split; [assumption |]. split; [lia |].
  split; [assumption |].
  apply Forall_app. split; [assumption |].
  apply Forall_map. revert Rb. apply Forall_impl.
  intros e. apply addOffset_in_range.
Qed.

(** Every constant still addresses the bytes it addressed before the
    merge: for tables with matching arrays and in-bounds entries whose
    combined blob stays below 2^32 bytes, an entry of A reads from the
    merged blob the bytes it read from A's blob, and the entry that
    replaces B's k-th entry reads the bytes that entry read from B's
    blob. *)
Theorem concat_specialization_info_keeps_constant_bytes :
  forall (a b : VkSpecializationInfo) entries data out,
    well_formed a -> well_formed b ->
    table_in_bounds a -> table_in_bounds b ->
    dataSize a + dataSize b < UINT32_MOD ->
    concat_specialization_info a b = Some (entries, data, out) ->
    (forall k ea, nth_error (pMapEntries a) k = Some ea ->
       nth_error entries k = Some ea
       /\ slice data (offset ea) (size ea) = slice (pData a) (offset ea) (size ea))
    /\ (forall k eb, nth_error (pMapEntries b) k = Some eb ->
          exists e,
            nth_error entries (length (pMapEntries a) + k) = Some e
            /\ constantID e = constantID eb
            /\ size e = size eb
            /\ slice data (offset e) (size e)
               = slice (pData b) (offset eb) (size eb)).
Proof.
  intros a b entries data out Wa Wb Ba Bb Hfit E.
  destruct (concat_specialization_info_some_inv a b _ Wa Wb E) as [Hc Hd].
  rewrite (concat_specialization_info_defined a b Wa Wb Hc Hd) in E.
  unfold merged in E. cbv zeta in E. injection E as <- <- <-.
  destruct Wa as (Ca & _ & Da & _ & Ra), Wb as (Cb & _ & Db & _ & Rb).
  unfold table_in_bounds in *. rewrite Forall_forall in *.
  split.
  - intros k ea Hk. split.
    + rewrite nth_error_app1; [exact Hk |].
      apply nth_error_Some. congruence.
    + apply nth_error_In in Hk.
      destruct (Ra ea Hk) as (_ & Ho & Hs). specialize (Ba ea Hk).
      unfold in_bounds in Ba. apply slice_app_left; lia.
  - intros k eb Hk.
    exists (addOffset (to_uint32 (dataSize a)) eb).
    split.
    { rewrite nth_error_app2 by lia.
      replace (length (pMapEntries a) + k - length (pMapEntries a))%nat with k
        by lia.
      now apply map_nth_error. }
    split; [reflexivity |]. split; [reflexivity |].
    apply nth_error_In in Hk.
    destruct (Rb eb Hk) as (_ & Ho & Hs). specialize (Bb eb Hk).
    unfold in_bounds in Bb. unfold addOffset, to_uint32. cbn [offset size].
    rewrite (Z.mod_small (dataSize a)) by lia.
    rewrite Z.mod_small by lia. rewrite Da.
    apply slice_app_right. lia.
Qed.

Lemma table_in_bounds_A4 : table_in_bounds table_A4.
Proof. repeat constructor. unfold in_bounds. simpl. discriminate. Defined.

Lemma table_in_bounds_B8 : table_in_bounds table_B8.
Proof. repeat constructor. unfold in_bounds. simpl. discriminate. Defined.

Lemma concat_specialization_info_keeps_constant_bytes_witness :
  exists e,
    nth_error
      [ {| constantID := 0; offset := 0; size := 4 |};
        {| constantID := 1; offset := 4; size := 8 |} ] (1 + 0) = Some e
    /\ constantID e = 1
    /\ size e = 8
    /\ slice (pData table_A4 ++ pData table_B8) (offset e) (size e)
       = slice (pData table_B8) 0 8.
Proof.
  destruct (concat_specialization_info_keeps_constant_bytes table_A4 table_B8
              [ {| constantID := 0; offset := 0; size := 4 |};
                {| constantID := 1; offset := 4; size := 8 |} ]
              (pData table_A4 ++ pData table_B8)
              {| mapEntryCount := 2;
                 pMapEntries :=
                   [ {| constantID := 0; offset := 0; size := 4 |};
                     {| constantID := 1; offset := 4; size := 8 |} ];
                 dataSize := 12;
                 pData := pData table_A4 ++ pData table_B8 |}
              well_formed_table_A4 well_formed_table_B8
              table_in_bounds_A4 table_in_bounds_B8 eq_refl eq_refl)
    as [_ HB].
  exact (HB 0%nat {| constantID := 1; offset := 0; size := 8 |} eq_refl).
Defined.

(** Merging is associative: when three tables have matching arrays, a
    combined entry count below 2^32 and a combined size below 2^64,
    merging A with B and then with C returns the same vectors and the
    same descriptor as merging A with the merge of B and C. *)
Theorem concat_specialization_info_assoc :
  forall a b c : VkSpecializationInfo,
    well_formed a -> well_formed b -> well_formed c ->
    mapEntryCount a + mapEntryCount b + mapEntryCount c < UINT32_MOD ->
    dataSize a + dataSize b + dataSize c < SIZE_MOD ->
    exists eab dab ab ebc dbc bc r,
      concat_specialization_info a b = Some (eab, dab, ab)
      /\ concat_specialization_info b c = Some (ebc, dbc, bc)
      /\ concat_specialization_info ab c = Some r
      /\ concat_specialization_info a bc = Some r.
Proof.
  intros a b c Wa Wb Wc Hc Hd.
  pose proof Wa as (Ca & _ & Da & _ & _).
  pose proof Wb as (Cb & _ & Db & _ & _).
  pose proof Wc as (Cc & _ & Dc & _ & _).
  assert (Wab : well_formed (snd (merged a b)))
    by (apply merged_well_formed; try assumption; lia).
  assert (Wbc : well_formed (snd (merged b c)))
    by (apply merged_well_formed; try assumption; lia).
  exists (fst (fst (merged a b))), (snd (fst (merged a b))), (snd (merged a b)),
    (fst (fst (merged b c))), (snd (fst (merged b c))), (snd (merged b c)),
    (merged (snd (merged a b)) c).
  split; [apply concat_specialization_info_defined; try assumption; lia |].
  split; [apply concat_specialization_info_defined; try assumption; lia |].
  split.
  { apply concat_specialization_info_defined; try assumption;
      unfold merged; simpl; lia. }
  rewrite concat_specialization_info_defined; try assumption;
    try (unfold merged; simpl; lia).
  f_equal. unfold merged. simpl.
  rewrite !map_app, map_map, <- !app_assoc.
  assert (M : map (fun x => addOffset (to_uint32 (dataSize a))
                              (addOffset (to_uint32 (dataSize b)) x))
                (pMapEntries c)
              = map (addOffset (to_uint32 (dataSize a + dataSize b)))
                  (pMapEntries c)).
  { apply map_ext. intros e. apply addOffset_addOffset. }
  rewrite M, !Z.add_assoc. reflexivity.
Qed.

Lemma concat_specialization_info_assoc_witness :
  exists eab dab ab ebc dbc bc r,
    concat_specialization_info table_A4 table_B8 = Some (eab, dab, ab)
    /\ concat_specialization_info table_B8 table_C2 = Some (ebc, dbc, bc)
    /\ concat_specialization_info ab table_C2 = Some r
    /\ concat_specialization_info table_A4 bc = Some r.
Proof.
  apply (concat_specialization_info_assoc table_A4 table_B8 table_C2
           well_formed_table_A4 well_formed_table_B8).
  - unfold well_formed, table_C2. simpl.
    repeat split; try reflexivity.
    repeat constructor; simpl; try discriminate.
  - reflexivity.
  - reflexivity.
Defined.

(** For tables with matching arrays the function returns exactly when
    neither the 32-bit entry count nor the [size_t] blob size of the
    output wraps; otherwise a copy would run past the end of a vector. *)
Theorem concat_specialization_info_returns_iff_no_wrap :
  forall a b : VkSpecializationInfo,
    well_formed a -> well_formed b ->
    ((exists r, concat_specialization_info a b = Some r) <->
     mapEntryCount a + mapEntryCount b < UINT32_MOD
     /\ dataSize a + dataSize b < SIZE_MOD).
Proof.
  intros a b Wa Wb. split.
  - intros [r E]. exact (concat_specialization_info_some_inv a b r Wa Wb E).
  - intros [Hc Hd]. eexists.
    exact (concat_specialization_info_defined a b Wa Wb Hc Hd).
Qed.

Lemma concat_specialization_info_returns_iff_no_wrap_witness :
  (exists r, concat_specialization_info table_A4 table_B8 = Some r) <->
  mapEntryCount table_A4 + mapEntryCount table_B8 < UINT32_MOD
  /\ dataSize table_A4 + dataSize table_B8 < SIZE_MOD.
Proof.
  exact (concat_specialization_info_returns_iff_no_wrap table_A4 table_B8
           well_formed_table_A4 well_formed_table_B8).
Defined.

End MergeMore.

(** * More on the submission closure *)

Section ClosureMore.
Import Closure ClosureUse.

Variable H : Type.
Variable d : driver H.

Lemma run_bind {A B : Type} (p : prog A) (k : A -> prog B) :
  forall h : H,
    run d (bind p k) h
    = match run d p h with
      | (t1, h1, None) => (t1, h1, None)
      | (t1, h1, Some a) =>
          let '(t2, h2, o) := run d (k a) h1 in (t1 ++ t2, h2, o)
      end.
Proof.
  induction p as [a | | c k' IH]; intros h; simpl.
  - destruct (run d (k a) h) as [[t2 h2] o]. reflexivity.
  - reflexivity.
  - destruct (d c h) as [r h1]. rewrite IH.
    destruct (run d (k' r) h1) as [[t1 h1'] [a |]]; [| reflexivity].
    destruct (run d (k a) h1') as [[t2 h2] o]. reflexivity.
Qed.

(** The complete run of [beginOneSubmitCommands] without a pool, spelled
    out on the answers of the host. *)
Lemma run_begin_internal (NDEBUG : bool) (this : QueueClosure) (h : H) :
  let dev := device (_mDevicePair this) in
  let createCall := vkCreateCommandPool dev (poolCreate_of this) in
  let createAns := d createCall h in
  let pool := snd (fst createAns) in
  let allocCall := vkAllocateCommandBuffers dev (allocInfo_of pool) in
  let allocAns := d allocCall (snd createAns) in
  let cmdBuffer := snd (fst allocAns) in
  let beginCall := vkBeginCommandBuffer cmdBuffer beginInfo_one_time in
  let beginAns := d beginCall (snd allocAns) in
  run d (beginOneSubmitCommands NDEBUG this VK_NULL_HANDLE) h
  = if NDEBUG || (fst (fst createAns) =? VK_SUCCESS)
    then if fst (fst allocAns) =? VK_SUCCESS
         then ([Ev createCall (fst createAns); Ev allocCall (fst allocAns);
                Ev beginCall (fst beginAns)],
               snd beginAns,
               if fst beginAns =? VK_SUCCESS
               then Some (cmdBuffer,
                          set_mCommandPool (set_mCmdPoolInternal this true) pool)
               else None)
         else ([Ev createCall (fst createAns); Ev allocCall (fst allocAns)],
               snd allocAns, None)
    else ([Ev createCall (fst createAns)], snd createAns, None).
Proof.
  cbv zeta.
  unfold beginOneSubmitCommands, ASSERT_VK_SUCCESS, assert, call,
    poolCreate_of, allocInfo_of, beginInfo_one_time.
  simpl.
  match goal with
  | |- context [d ?c h] => destruct (d c h) as [[rC p] h1]
  end. simpl.
  assert (E : (if NDEBUG then Ret tt
               else if rC =? VK_SUCCESS then Ret tt else @Abort unit)
              = if NDEBUG || (rC =? VK_SUCCESS) then Ret tt else Abort)
    by (destruct NDEBUG; reflexivity).
  rewrite E. clear E.
  destruct (NDEBUG || (rC =? VK_SUCCESS)); simpl; [| reflexivity].
  match goal with
  | |- context [d ?c h1] => destruct (d c h1) as [[rA cb] h2]
  end. simpl.
  destruct (rA =? VK_SUCCESS); simpl; [| reflexivity].
  match goal with
  | |- context [d ?c h2] => destruct (d c h2) as [rB h3]
  end. simpl.
  destruct (rB =? VK_SUCCESS); reflexivity.
Qed.

(** The complete run of [beginOneSubmitCommands] with a pool supplied. *)
Lemma run_begin_external (NDEBUG : bool) (this : QueueClosure)
    (ext : VkCommandPool) (h : H) :
  ext <> VK_NULL_HANDLE ->
  let dev := device (_mDevicePair this) in
  let allocCall := vkAllocateCommandBuffers dev (allocInfo_of ext) in
  let allocAns := d allocCall h in
  let cmdBuffer := snd (fst allocAns) in
  let beginCall := vkBeginCommandBuffer cmdBuffer beginInfo_one_time in
  let beginAns := d beginCall (snd allocAns) in
  run d (beginOneSubmitCommands NDEBUG this ext) h
  = if fst (fst allocAns) =? VK_SUCCESS
    then ([Ev allocCall (fst allocAns); Ev beginCall (fst beginAns)],
          snd beginAns,
          if fst beginAns =? VK_SUCCESS then Some (cmdBuffer, this) else None)
    else ([Ev allocCall (fst allocAns)], snd allocAns, None).
Proof.
  intros Hext. apply Z.eqb_neq in Hext. cbv zeta.
  unfold beginOneSubmitCommands, ASSERT_VK_SUCCESS, call,
    allocInfo_of, beginInfo_one_time.
  rewrite Hext. simpl.
  match goal with
  | |- context [d ?c h] => destruct (d c h) as [[rA cb] h1]
  end. simpl.
  destruct (rA =? VK_SUCCESS); simpl; [| reflexivity].
  match goal with
  | |- context [d ?c h1] => destruct (d c h1) as [rB h2]
  end. simpl.
  destruct (rB =? VK_SUCCESS); reflexivity.
Qed.

(** Without a pool argument, [beginOneSubmitCommands] asks the host for a
    transient pool on the closure's queue family.  If that call fails it
    stops there when the file is compiled with assertions; compiled with
    [NDEBUG] the [assert] is no statement and it goes on with whatever
    handle the host wrote.  It then asks for one primary command buffer
    from that handle and starts one-time-submit recording on the buffer,
    stopping at the first of these two calls that fails.  When it returns,
    it returns that buffer with that handle stored in the closure and the
    internal flag set. *)
Theorem begin_without_pool_creates_and_owns :
  forall (NDEBUG : bool) (this : QueueClosure) (h : H),
    let dev := device (_mDevicePair this) in
    let createCall := vkCreateCommandPool dev (poolCreate_of this) in
    let createAns := d createCall h in
    let pool := snd (fst createAns) in
    let allocCall := vkAllocateCommandBuffers dev (allocInfo_of pool) in
    let allocAns := d allocCall (snd createAns) in
    let cmdBuffer := snd (fst allocAns) in
    let beginCall := vkBeginCommandBuffer cmdBuffer beginInfo_one_time in
    let beginAns := d beginCall (snd allocAns) in
    let ok1 := NDEBUG || (fst (fst createAns) =? VK_SUCCESS) in
    let ok2 := fst (fst allocAns) =? VK_SUCCESS in
    let ok3 := fst beginAns =? VK_SUCCESS in
    run_trace d (beginOneSubmitCommands NDEBUG this VK_NULL_HANDLE) h
    = Ev createCall (fst createAns)
      :: (if ok1
          then Ev allocCall (fst allocAns)
               :: (if ok2 then [Ev beginCall (fst beginAns)] else [])
          else [])
    /\ run_result d (beginOneSubmitCommands NDEBUG this VK_NULL_HANDLE) h
       = (if ok1 && ok2 && ok3
          then Some (cmdBuffer,
                     {| mQueue := mQueue this; mFamilyIdx := mFamilyIdx this;
                        _mDevicePair := _mDevicePair this;
                        _mCommandPool := pool; _mCmdPoolInternal := true |})
          else None).
Proof.
  intros NDEBUG this h. cbv zeta. unfold run_trace, run_result.
  rewrite run_begin_internal. cbv zeta.
  destruct (NDEBUG
            || (fst (fst (d (vkCreateCommandPool (device (_mDevicePair this))
                               (poolCreate_of this)) h)) =? VK_SUCCESS)); simpl;
    [| split; reflexivity].
  match goal with
  | |- context [if ?c then _ else _] => destruct c
  end; simpl; [| split; reflexivity].
  match goal with
  | |- context [if ?c then Some _ else None] => destruct c
  end; split; reflexivity.
Qed.

(** [beginOneSubmitCommands] only ever creates a pool (and only when none
    was supplied), allocates and begins: it never frees a buffer nor
    destroys a pool, so a pool still stored in the closure from an
    earlier begin is not released when a new one is created over it. *)
Theorem begin_never_releases :
  forall (NDEBUG : bool) (this : QueueClosure) (aCommandPool : VkCommandPool)
         (h : H) (c : vkcall),
    In c (calls (run_trace d
                   (beginOneSubmitCommands NDEBUG this aCommandPool) h)) ->
    is_setup c = true
    /\ is_free c = false /\ is_destroy c = false
    /\ (forall dev info, c = vkCreateCommandPool dev info ->
          aCommandPool = VK_NULL_HANDLE).
Proof.
  intros NDEBUG this p h c. unfold run_trace.
  destruct (Z.eq_dec p VK_NULL_HANDLE) as [-> | Hp].
  - rewrite run_begin_internal. cbv zeta.
    repeat match goal with
           | |- context [if ?b then _ else _] => destruct b
           end; simpl;
      intros Hin; repeat (destruct Hin as [<- | Hin]); try contradiction;
      repeat split; intros; reflexivity.
  - rewrite (run_begin_external NDEBUG this p h Hp). cbv zeta.
    repeat match goal with
           | |- context [if ?b then _ else _] => destruct b
           end; simpl;
      intros Hin; repeat (destruct Hin as [<- | Hin]); try contradiction;
      repeat split; intros; try reflexivity; discriminate.
Qed.

End ClosureMore.

Section FinishMore.
Import Closure ClosureUse.

Variable H : Type.
Variable d : driver H.
Variable sSingleSubmitTemplate : VkSubmitInfo.

Local Abbreviation finish := (finishOneSubmitCommands sSingleSubmitTemplate).

(** The submit, free, destroy and setup calls of a run of
    [finishOneSubmitCommands]. *)
Lemma finish_filters (this : QueueClosure) (b : VkCommandBuffer)
    (ws ss : list VkSemaphore) (f : VkFence) (w : bool) (h : H) :
  let t := calls (run_trace d (finish this b ws ss f w) h) in
  let okE := fst (d (vkEndCommandBuffer b) h) =? VK_SUCCESS in
  let dev := device (_mDevicePair this) in
  filter is_submit t
  = (if okE
     then [vkQueueSubmit (mQueue this) 1
             (build_submission sSingleSubmitTemplate b ws ss) f]
     else [])
  /\ filter is_free t
     = (if okE && (negb (b =? VK_NULL_HANDLE) && _mCmdPoolInternal this)
        then [vkFreeCommandBuffers dev (_mCommandPool this) 1 b] else [])
  /\ filter is_destroy t
     = (if okE && negb (_mCommandPool this =? VK_NULL_HANDLE)
        then [vkDestroyCommandPool dev (_mCommandPool this)] else [])
  /\ filter is_setup t = [].
Proof.
  cbv zeta.
  destruct (calls_finish H d sSingleSubmitTemplate this b ws ss f w h)
    as (okE & submitResult & -> & _ & C & _ & _).
  rewrite C. clear C.
  destruct (fst (d (vkEndCommandBuffer b) h) =? VK_SUCCESS),
    ((submitResult =? VK_SUCCESS) && w && (f =? VK_NULL_HANDLE)),
    (negb (b =? VK_NULL_HANDLE) && _mCmdPoolInternal this),
    (negb (_mCommandPool this =? VK_NULL_HANDLE));
    repeat split; reflexivity.
Qed.

(** A run of [finishOneSubmitCommands] submits exactly once when
    end-of-recording succeeds and not at all otherwise; a failed
    submission is not tried again.  The one submission goes to the
    closure's queue with the fence given, and names exactly the command
    buffer given and the two semaphore lists given, their counts being
    the list lengths cut to 32 bits. *)
Theorem finish_submits_once :
  forall (this : QueueClosure) (b : VkCommandBuffer)
         (ws ss : list VkSemaphore) (f : VkFence) (w : bool) (h : H),
    let submission := build_submission sSingleSubmitTemplate b ws ss in
    filter is_submit (calls (run_trace d (finish this b ws ss f w) h))
    = (if fst (d (vkEndCommandBuffer b) h) =? VK_SUCCESS
       then [vkQueueSubmit (mQueue this) 1 submission f] else [])
    /\ commandBufferCount submission = 1
    /\ pCommandBuffers submission = [b]
    /\ pWaitSemaphores submission = ws
    /\ waitSemaphoreCount submission = Z.of_nat (length ws) mod UINT32_MOD
    /\ pSignalSemaphores submission = ss
    /\ signalSemaphoreCount submission = Z.of_nat (length ss) mod UINT32_MOD.
Proof.
  intros this b ws ss f w h submission.
  destruct (finish_filters this b ws ss f w h) as (S1 & _).
  split; [exact S1 |]. repeat split.
Qed.

(** The cleanup calls of a run of [finishOneSubmitCommands]: when
    end-of-recording fails there are none.  Otherwise the command buffer
    is freed, from the stored pool, exactly when it is non-null and the
    internal flag is set, and the stored pool is destroyed exactly when
    it is non-null, whether or not the flag is set.  In particular a
    buffer allocated from a caller's pool is never freed by finish. *)
Theorem finish_cleanup_calls :
  forall (this : QueueClosure) (b : VkCommandBuffer)
         (ws ss : list VkSemaphore) (f : VkFence) (w : bool) (h : H),
    let t := calls (run_trace d (finish this b ws ss f w) h) in
    let okE := fst (d (vkEndCommandBuffer b) h) =? VK_SUCCESS in
    let dev := device (_mDevicePair this) in
    filter is_free t
    = (if okE && (negb (b =? VK_NULL_HANDLE) && _mCmdPoolInternal this)
       then [vkFreeCommandBuffers dev (_mCommandPool this) 1 b] else [])
    /\ filter is_destroy t
       = (if okE && negb (_mCommandPool this =? VK_NULL_HANDLE)
          then [vkDestroyCommandPool dev (_mCommandPool this)] else [])
    /\ (_mCmdPoolInternal this = false -> filter is_free t = []).
Proof.
  intros this b ws ss f w h. cbv zeta.
  destruct (finish_filters this b ws ss f w h) as (_ & S2 & S3 & _).
  cbv zeta in S2, S3. split; [exact S2 |]. split; [exact S3 |].
  intros Hflag. rewrite S2, Hflag, andb_false_r, andb_false_r. reflexivity.
Qed.

Lemma finish_result_state (this : QueueClosure) (b : VkCommandBuffer)
    (ws ss : list VkSemaphore) (f : VkFence) (w : bool) (h : H) r this' :
  run_result d (finish this b ws ss f w) h = Some (r, this') ->
  (fst (d (vkEndCommandBuffer b) h) =? VK_SUCCESS) = true
  /\ this' = {| mQueue := mQueue this; mFamilyIdx := mFamilyIdx this;
                _mDevicePair := _mDevicePair this;
                _mCommandPool := VK_NULL_HANDLE;
                _mCmdPoolInternal := false |}.
Proof.
  destruct (run_finish H d sSingleSubmitTemplate this b ws ss f w h) as [_ R].
  cbv zeta in R. rewrite R. clear R.
  destruct (fst (d (vkEndCommandBuffer b) h) =? VK_SUCCESS); [| discriminate].
  intros E. injection E as _ <-. split; [reflexivity |].
  destruct (negb (_mCommandPool this =? VK_NULL_HANDLE)) eqn:N;
    unfold set_mCmdPoolInternal, set_mCommandPool; simpl; [reflexivity |].
  apply negb_false_iff, Z.eqb_eq in N. now rewrite N.
Qed.

(** Finishing twice is harmless: on the closure a returning
    [finishOneSubmitCommands] leaves behind, another finish, with any
    arguments and on any host state, frees nothing and destroys
    nothing. *)
Theorem finish_again_releases_nothing :
  forall (this : QueueClosure) (b : VkCommandBuffer)
         (ws ss : list VkSemaphore) (f : VkFence) (w : bool) (h : H)
         (r : VkResult) (this' : QueueClosure),
    run_result d (finish this b ws ss f w) h = Some (r, this') ->
    forall b' ws' ss' f' w' h',
      filter (fun c => is_free c || is_destroy c)
        (calls (run_trace d (finish this' b' ws' ss' f' w') h')) = [].
Proof.
  intros this b ws ss f w h r this' R b' ws' ss' f' w' h'.
  destruct (finish_result_state this b ws ss f w h r this' R) as [_ ->].
  destruct (calls_finish H d sSingleSubmitTemplate
              {| mQueue := mQueue this; mFamilyIdx := mFamilyIdx this;
                 _mDevicePair := _mDevicePair this;
                 _mCommandPool := VK_NULL_HANDLE;
                 _mCmdPoolInternal := false |} b' ws' ss' f' w' h')
    as (okE & submitResult & _ & _ & C & _ & _).
  rewrite C. clear C. simpl. rewrite andb_false_r. simpl.
  destruct okE, ((submitResult =? VK_SUCCESS) && w' && (f' =? VK_NULL_HANDLE));
    reflexivity.
Qed.

(** A begin without pool followed by a finish is balanced.  Whenever the
    pair returns, the closure has a null pool and a cleared flag again, so
    an idle closure is back exactly as it was.  The run starts with the
    pool creation, the allocation of one buffer from the very handle the
    host wrote for that creation, and the start of recording on the very
    buffer the host handed out; finish then frees that buffer from that
    pool and destroys that pool (a null handle, which a host does not hand
    out with [VK_SUCCESS], is the only one skipped), and nothing else is
    freed or destroyed.  The allocation and the start of recording
    succeeded, and so did the pool creation unless the file is compiled
    with [NDEBUG]. *)
Theorem begin_then_finish_balanced :
  forall (NDEBUG : bool) (this : QueueClosure) (ws ss : list VkSemaphore)
         (f : VkFence) (w : bool) (h : H) (r : VkResult)
         (this2 : QueueClosure),
    run_result d
      (begin_then_finish NDEBUG sSingleSubmitTemplate this ws ss f w) h
      = Some (r, this2) ->
    let t := run_trace d
               (begin_then_finish NDEBUG sSingleSubmitTemplate this ws ss f w)
               h in
    let dev := device (_mDevicePair this) in
    let createCall := vkCreateCommandPool dev (poolCreate_of this) in
    let createAns := d createCall h in
    let pool := snd (fst createAns) in
    let allocCall := vkAllocateCommandBuffers dev (allocInfo_of pool) in
    let allocAns := d allocCall (snd createAns) in
    let cmdBuffer := snd (fst allocAns) in
    let beginCall := vkBeginCommandBuffer cmdBuffer beginInfo_one_time in
    let beginAns := d beginCall (snd allocAns) in
    this2 = {| mQueue := mQueue this; mFamilyIdx := mFamilyIdx this;
               _mDevicePair := _mDevicePair this;
               _mCommandPool := VK_NULL_HANDLE;
               _mCmdPoolInternal := false |}
    /\ (_mCommandPool this = VK_NULL_HANDLE ->
        _mCmdPoolInternal this = false -> this2 = this)
    /\ (NDEBUG = false -> fst (fst createAns) = VK_SUCCESS)
    /\ fst (fst allocAns) = VK_SUCCESS
    /\ fst beginAns = VK_SUCCESS
    /\ (exists rest,
          t = Ev createCall (fst createAns)
              :: Ev allocCall (fst allocAns)
              :: Ev beginCall (fst beginAns) :: rest)
    /\ filter is_setup (calls t) = [createCall; allocCall; beginCall]
    /\ filter is_free (calls t)
       = (if cmdBuffer =? VK_NULL_HANDLE then []
          else [vkFreeCommandBuffers dev pool 1 cmdBuffer])
    /\ filter is_destroy (calls t)
       = (if pool =? VK_NULL_HANDLE then []
          else [vkDestroyCommandPool dev pool]).
Proof.
  intros NDEBUG this ws ss f w h r this2. cbv zeta.
  unfold run_result, run_trace, begin_then_finish.
  rewrite run_bind, run_begin_internal. cbv zeta.
  set (createAns := d (vkCreateCommandPool (device (_mDevicePair this))
                         (poolCreate_of this)) h).
  set (pool := snd (fst createAns)).
  set (allocAns := d (vkAllocateCommandBuffers (device (_mDevicePair this))
                        (allocInfo_of pool)) (snd createAns)).
  set (cmdBuffer := snd (fst allocAns)).
  set (beginAns := d (vkBeginCommandBuffer cmdBuffer beginInfo_one_time)
                     (snd allocAns)).
  destruct (NDEBUG || (fst (fst createAns) =? VK_SUCCESS)) eqn:E1;
    [| discriminate].
  destruct (fst (fst allocAns) =? VK_SUCCESS) eqn:E2; [| discriminate].
  destruct (fst beginAns =? VK_SUCCESS) eqn:E3; [| discriminate].
  cbn [fst snd].
  set (this1 := set_mCommandPool (set_mCmdPoolInternal this true) pool).
  pose proof (finish_filters this1 cmdBuffer ws ss f w (snd beginAns))
    as (_ & F2 & F3 & F4).
  cbv zeta in F2, F3, F4.
  pose proof (finish_result_state this1 cmdBuffer ws ss f w (snd beginAns))
    as FR.
  unfold run_trace in F2, F3, F4. unfold run_result in FR.
  destruct (run d (finish this1 cmdBuffer ws ss f w) (snd beginAns))
    as [[t2 h4] o2].
  cbn [fst snd] in *. intros E. subst o2.
  destruct (FR r this2 eq_refl) as [Hok ->].
  rewrite Hok in F2, F3. cbn [andb] in F2, F3.
  split; [reflexivity |]. split.
  { intros Hp Hf. destruct this as [q fi dp cp ci]. simpl in *.
    now subst cp ci. }
  split.
  { intros ->. simpl in E1. now apply Z.eqb_eq. }
  split; [now apply Z.eqb_eq |]. split; [now apply Z.eqb_eq |].
  split; [exists t2; reflexivity |].
  unfold calls in *. rewrite !map_app, !filter_app.
  rewrite F2, F3, F4.
  cbn [map ev_call filter is_setup is_free is_destroy app
       _mCmdPoolInternal _mCommandPool _mDevicePair this1
       set_mCommandPool set_mCmdPoolInternal].
  rewrite andb_true_r.
  split; [reflexivity |]. split.
  - destruct (cmdBuffer =? VK_NULL_HANDLE); reflexivity.
  - destruct (pool =? VK_NULL_HANDLE); reflexivity.
Qed.

End FinishMore.

(** * More on device scoring and selection *)

Section DeviceMore.
Import Device.

(** The gate is monotone in the queue families that own a queue: if every
    such family of one device is also reported for another device, every
    mask the first passes the second passes too.  Families without a
    queue play no part. *)
Theorem confirm_queue_fam_monotone :
  forall (host1 host2 : PhysicalDeviceQueries) (d1 d2 : VkPhysicalDevice)
         (aBitmask : Z),
    (forall q,
       In q (vkGetPhysicalDeviceQueueFamilyProperties host1 d1) ->
       0 < queueCount q ->
       In q (vkGetPhysicalDeviceQueueFamilyProperties host2 d2)) ->
    confirm_queue_fam host1 d1 aBitmask = true ->
    confirm_queue_fam host2 d2 aBitmask = true.
Proof.
  intros host1 host2 d1 d2 mask Hsub H1.
  apply confirm_queue_fam_iff. intros n Hn Hm.
  destruct (proj1 (confirm_queue_fam_iff host1 d1 mask) H1 n Hn Hm)
    as (q & Hq & Hc & Hb).
  exists q. split; [now apply Hsub | split; assumption].
Qed.

Lemma confirm_queue_fam_monotone_witness :
  confirm_queue_fam Examples.sample_host 2 3 = true.
Proof.
  apply (confirm_queue_fam_monotone Examples.sample_host Examples.sample_host
           1 2 3).
  - intros q Hq _. exact Hq.
  - reflexivity.
Defined.

(** A device none of whose queue families has a queue, and so also a
    device that reports no queue family at all, is scored ineligible
    whatever its type. *)
Theorem score_without_queues_is_ineligible :
  forall (host : PhysicalDeviceQueries) (d : VkPhysicalDevice),
    (forall q, In q (vkGetPhysicalDeviceQueueFamilyProperties host d) ->
               queueCount q <= 0) ->
    score_physical_device host d = -1.
Proof.
  intros host d Hnone. unfold score_physical_device. cbv zeta.
  destruct (confirm_queue_fam host d
              (Z.lor VK_QUEUE_GRAPHICS_BIT VK_QUEUE_COMPUTE_BIT)) eqn:E;
    [| reflexivity].
  apply gate_iff in E. destruct E as [[q [Hq [_ Hc]]] _].
  specialize (Hnone q Hq). lia.
Qed.

Lemma score_without_queues_is_ineligible_witness :
  score_physical_device Examples.sample_host 9 = -1.
Proof.
  apply score_without_queues_is_ineligible. intros q [].
Defined.

Lemma in_at_index (l : list VkPhysicalDevice) (x : VkPhysicalDevice) :
  In x l -> exists j, (j < length l)%nat /\ at_index l j = x.
Proof. intros Hx. unfold at_index. now apply In_nth. Qed.

(** The position of the devices decides only ties: when a single device
    holds the best eligible score, reordering the list does not change
    which device is selected, and a list without eligible device yields
    the null handle in any order. *)
Theorem select_physical_device_order_independent :
  forall (host : PhysicalDeviceQueries) (l l' : list VkPhysicalDevice),
    Permutation l l' ->
    (forall d d',
       In d l -> In d' l ->
       0 <= score_physical_device host d ->
       (forall x, In x l ->
                  score_physical_device host x <= score_physical_device host d) ->
       score_physical_device host d' = score_physical_device host d ->
       d' = d) ->
    select_physical_device host l = select_physical_device host l'.
Proof.
  intros host l l' P Huniq.
  pose proof (select_loop_final host l) as I1.
  pose proof (select_loop_final host l') as I2.
  unfold select_physical_device.
  destruct (select_loop host l 0 (-1) 0) as [hs mi].
  destruct (select_loop host l' 0 (-1) 0) as [hs' mi'].
  simpl in I1, I2.
  destruct I1 as [[-> A1] | (P1 & M1 & S1 & L1 & _)];
    destruct I2 as [[-> A2] | (P2 & M2 & S2 & L2 & _)].
  - reflexivity.
  - exfalso.
    assert (In (at_index l' mi') l) as Hin.
    { apply (Permutation_in _ (Permutation_sym P)). apply nth_In. exact M2. }
    specialize (A1 _ Hin). lia.
  - exfalso.
    assert (In (at_index l mi) l') as Hin.
    { apply (Permutation_in _ P). apply nth_In. exact M1. }
    specialize (A2 _ Hin). lia.
  - assert (G1 : (hs >=? 0) = true) by (apply Z.geb_le; lia).
    assert (G2 : (hs' >=? 0) = true) by (apply Z.geb_le; lia).
    rewrite G1, G2. fold (at_index l mi). fold (at_index l' mi').
    assert (In1 : In (at_index l mi) l) by (apply nth_In; exact M1).
    assert (In2 : In (at_index l' mi') l).
    { apply (Permutation_in _ (Permutation_sym P)). apply nth_In. exact M2. }
    assert (Max1 : forall x, In x l -> score_physical_device host x <= hs).
    { intros x Hx. destruct (in_at_index l x Hx) as (j & Hj & <-).
      now apply L1. }
    assert (Max2 : forall x, In x l -> score_physical_device host x <= hs').
    { intros x Hx. apply (Permutation_in _ P) in Hx.
      destruct (in_at_index l' x Hx) as (j & Hj & <-). now apply L2. }
    pose proof (Max1 _ In2) as Le1. pose proof (Max2 _ In1) as Le2.
    rewrite S1 in Le2. rewrite S2 in Le1.
    symmetry. apply (Huniq (at_index l mi) (at_index l' mi') In1 In2).
    + lia.
    + intros x Hx. rewrite S1. now apply Max1.
    + lia.
Qed.

Lemma select_physical_device_order_independent_witness :
  select_physical_device Examples.sample_host [1; 2; 3]
  = select_physical_device Examples.sample_host [3; 2; 1].
Proof.
  apply select_physical_device_order_independent.
  - apply (perm_trans (l' := [2; 1; 3])); [apply perm_swap |].
    apply (perm_trans (l' := [2; 3; 1])); [apply perm_skip, perm_swap |].
    apply perm_swap.
  - intros d d' Hd Hd'. simpl in Hd, Hd'.
    destruct Hd as [<- | [<- | [<- | []]]];
      destruct Hd' as [<- | [<- | [<- | []]]];
      intros Hs Hmax He; try reflexivity;
      try (vm_compute in He; discriminate He);
      try (vm_compute in Hs; exfalso; apply Hs; reflexivity).
Defined.

End DeviceMore.

Section ClosureMoreWitnesses.
Import Closure ClosureUse Examples.

Lemma begin_never_releases_witness :
  is_setup (vkAllocateCommandBuffers 5 (allocInfo_of 50)) = true
  /\ is_free (vkAllocateCommandBuffers 5 (allocInfo_of 50)) = false
  /\ is_destroy (vkAllocateCommandBuffers 5 (allocInfo_of 50)) = false
  /\ (forall dev info,
        vkAllocateCommandBuffers 5 (allocInfo_of 50)
        = vkCreateCommandPool dev info -> 50 = VK_NULL_HANDLE).
Proof.
  apply (begin_never_releases Z (scripted_driver 0) true owning_closure 50 200).
  left. reflexivity.
Defined.

Lemma finish_again_releases_nothing_witness :
  filter (fun c => is_free c || is_destroy c)
    (calls (run_trace (scripted_driver 3)
              (finishOneSubmitCommands empty_template idle_closure
                 101 [] [] 0 true) 300)) = [].
Proof.
  apply (finish_again_releases_nothing Z (scripted_driver 3) empty_template
           owning_closure 101 [] [] 0 true 102 3 idle_closure).
  reflexivity.
Defined.

(** On the host that hands out handles 100 and 101: pool 100 is created,
    buffer 101 is allocated from pool 100, freed from it, and pool 100 is
    destroyed. *)
Lemma begin_then_finish_balanced_witness :
  let t := run_trace (scripted_driver 0)
             (begin_then_finish false empty_template idle_closure [] [] 0 true)
             100 in
  (exists rest,
      t = Ev (vkCreateCommandPool 5 (poolCreate_of idle_closure))
            (VK_SUCCESS, 100)
          :: Ev (vkAllocateCommandBuffers 5 (allocInfo_of 100))
               (VK_SUCCESS, 101)
          :: Ev (vkBeginCommandBuffer 101 beginInfo_one_time) VK_SUCCESS
          :: rest)
  /\ filter is_setup (calls t)
     = [vkCreateCommandPool 5 (poolCreate_of idle_closure);
        vkAllocateCommandBuffers 5 (allocInfo_of 100);
        vkBeginCommandBuffer 101 beginInfo_one_time]
  /\ filter is_free (calls t) = [vkFreeCommandBuffers 5 100 1 101]
  /\ filter is_destroy (calls t) = [vkDestroyCommandPool 5 100].
Proof.
  exact (proj2 (proj2 (proj2 (proj2 (proj2
           (begin_then_finish_balanced Z (scripted_driver 0) empty_template
              false idle_closure [] [] 0 true 100 0 idle_closure
              eq_refl)))))).
Defined.

End ClosureMoreWitnesses.
